(** * SOP-gen: document model, exporter and translator

    A shallow embedding of [sopgen/models.py], [sopgen/export.py] and
    [sopgen/translation.py], followed by the properties of the document
    state machine, of the serialised form and of the export pipeline.

    Conventions of the embedding.
    - A Python [str] is a Rocq [string]; each character stands for one code
      point in the range 0..255.
    - A Python [int] is a [Z]; [len] results are [nat].
    - [Section] objects and their [metadata] dictionaries are mutable and
      shared by reference in Python: they live in a store and are named by
      locations.  Values compared with [==] are read back from the store.
    - [datetime.now()] is an input: every function takes the readings of
      the clock it makes as explicit arguments.
    - A raised exception is a value of [outcome]. *)

From Stdlib Require Import ZArith String Ascii List Bool Lia DecimalString.
From stdpp Require Import base option list strings.

Open Scope string_scope.
Open Scope list_scope.
Open Scope Z_scope.

(** ** Python strings *)

Module PyStr.

(** The line feed character, written ["\n"] in the source. *)
Definition nl : string := String (ascii_of_nat 10) "".

(** [str.isspace] on one character, for code points below 256: the ASCII
    controls TAB..CR and FS..US, the space, NEL and the no-break space. *)
Definition isspace (c : ascii) : bool :=
  let n := N_of_ascii c in
  ((9 <=? n) && (n <=? 13) || (28 <=? n) && (n <=? 32) || (n =? 133) || (n =? 160))%N.

(** Truth value of a string: [bool(s)] is [False] exactly for [""]. *)
Definition truthy (s : string) : bool :=
  match s with "" => false | _ => true end.

(** [s.lstrip(chars)], with the character set given as a predicate. *)
Fixpoint lstrip_by (p : ascii -> bool) (s : string) : string :=
  match s with
  | "" => ""
  | String c r => if p c then lstrip_by p r else s
  end.

(** [s.rstrip(chars)]. *)
Fixpoint rstrip_by (p : ascii -> bool) (s : string) : string :=
  match s with
  | "" => ""
  | String c r =>
      match rstrip_by p r with
      | "" => if p c then "" else String c ""
      | r' => String c r'
      end
  end.

Definition strip_by (p : ascii -> bool) (s : string) : string :=
  rstrip_by p (lstrip_by p s).

(** [s.strip()]: whitespace removed at both ends. *)
Definition strip (s : string) : string := strip_by isspace s.

(** [s.strip('|')]. *)
Definition strip_pipe (s : string) : string :=
  strip_by (fun c => Ascii.eqb c "|"%char) s.

(** The guard [not s or not s.strip()] of the exporters and the translator. *)
Definition is_blank (s : string) : bool :=
  negb (truthy s) || negb (truthy (strip s)).

(** [str.lower] on one character below 256: A..Z and the Latin-1 capitals
    (U+00C0..U+00DE without the multiplication sign) move up by 32. *)
Definition lower_char (c : ascii) : ascii :=
  let n := N_of_ascii c in
  if ((65 <=? n) && (n <=? 90) || (192 <=? n) && (n <=? 222) && negb (n =? 215))%N
  then ascii_of_N (n + 32) else c.

Fixpoint lower (s : string) : string :=
  match s with
  | "" => ""
  | String c r => String (lower_char c) (lower r)
  end.

(** [s.startswith(p)]. *)
Definition startswith (p s : string) : bool := String.prefix p s.

(** [sep.join(parts)]. *)
Definition join (sep : string) (parts : list string) : string :=
  String.concat sep parts.

(** The slice [s[:n]]. *)
Fixpoint take (n : nat) (s : string) : string :=
  match n, s with
  | S k, String c r => String c (take k r)
  | _, _ => ""
  end.

(** [s.split(sep)] for a non-empty separator: cut at the occurrences of
    [sep] found from left to right without overlap.  [skip] counts the
    characters of a separator just matched that are still to be dropped,
    [cur] is the piece being read. *)
Fixpoint split_go (sep : string) (skip : nat) (cur : string) (s : string)
  : list string :=
  match s with
  | "" => [cur]
  | String c r =>
      match skip with
      | S k => split_go sep k cur r
      | O =>
          if String.prefix sep s
          then cur :: split_go sep (Nat.pred (String.length sep)) "" r
          else split_go sep O (cur +:+ String c "") r
      end
  end.

Definition split (sep : string) (s : string) : list string :=
  split_go sep O "" s.

(** [str(n)] for an integer. *)
Definition of_int (n : Z) : string := NilZero.string_of_int (Z.to_int n).

(** [s.encode('utf-8')] for code points below 256: one byte below 128, two
    bytes otherwise. *)
Definition encode_char (c : ascii) : list Byte.byte :=
  let n := N_of_ascii c in
  if (n <? 128)%N then [byte_of_ascii c]
  else [byte_of_ascii (ascii_of_N (192 + n / 64)%N);
        byte_of_ascii (ascii_of_N (128 + n mod 64)%N)].

Fixpoint encode_utf8 (s : string) : list Byte.byte :=
  match s with
  | "" => []
  | String c r => encode_char c ++ encode_utf8 r
  end.

End PyStr.

(** ** Naive datetimes *)

Module DateTime.

(** A [datetime] without time zone, as [datetime.now()] returns it. *)
Record datetime := mk_datetime {
  year : Z; month : Z; day : Z;
  hour : Z; minute : Z; second : Z; microsecond : Z
}.

Definition is_leap (y : Z) : bool :=
  (y mod 4 =? 0) && (negb (y mod 100 =? 0) || (y mod 400 =? 0)).

Definition days_in_month (y m : Z) : Z :=
  if m =? 2 then (if is_leap y then 29 else 28)
  else if (m =? 4) || (m =? 6) || (m =? 9) || (m =? 11) then 30 else 31.

Definition between (lo x hi : Z) : bool := (lo <=? x) && (x <=? hi).

(** The ranges the [datetime] constructor enforces. *)
Definition valid (t : datetime) : bool :=
  between 1 (year t) 9999 && between 1 (month t) 12
  && between 1 (day t) (days_in_month (year t) (month t))
  && between 0 (hour t) 23 && between 0 (minute t) 59
  && between 0 (second t) 59 && between 0 (microsecond t) 999999.

Definition digit (d : Z) : ascii := ascii_of_N (Z.to_N (48 + d mod 10)).

(** The [width] low decimal digits of [n], most significant first
    (the [%0<width>d] of a number that fits). *)
Fixpoint pad_onto (width : nat) (n : Z) (acc : string) : string :=
  match width with
  | O => acc
  | S w => pad_onto w (n / 10) (String (digit n) acc)
  end.

Definition pad (width : nat) (n : Z) : string := pad_onto width n "".

Definition date_part (t : datetime) : string :=
  pad 4 (year t) +:+ "-" +:+ pad 2 (month t) +:+ "-" +:+ pad 2 (day t).

Definition time_part (t : datetime) : string :=
  pad 2 (hour t) +:+ ":" +:+ pad 2 (minute t) +:+ ":" +:+ pad 2 (second t).

(** [t.isoformat()]: [YYYY-MM-DDTHH:MM:SS], followed by [.ffffff] when the
    microsecond is not zero. *)
Definition isoformat (t : datetime) : string :=
  date_part t +:+ "T" +:+ time_part t +:+
  (if microsecond t =? 0 then "" else "." +:+ pad 6 (microsecond t)).

(** [t.strftime('%Y-%m-%d %H:%M:%S')]. *)
Definition strftime_seconds (t : datetime) : string :=
  date_part t +:+ " " +:+ time_part t.

(** [t.strftime('%Y-%m-%d')]. *)
Definition strftime_date (t : datetime) : string := date_part t.

Definition digit_val (c : ascii) : option Z :=
  let n := N_of_ascii c in
  if ((48 <=? n) && (n <=? 57))%N then Some (Z.of_N n - 48) else None.

(** Read exactly [width] decimal digits; the value read so far is [acc]. *)
Fixpoint read_digits (width : nat) (acc : Z) (s : string) : option (Z * string) :=
  match width with
  | O => Some (acc, s)
  | S w =>
      match s with
      | "" => None
      | String c r => d ← digit_val c; read_digits w (acc * 10 + d) r
      end
  end.

Definition expect (c : ascii) (s : string) : option string :=
  match s with
  | String c' r => if Ascii.eqb c c' then Some r else None
  | "" => None
  end.

Definition any_char (s : string) : option string :=
  match s with String _ r => Some r | "" => None end.

Definition read_fraction (s : string) : option Z :=
  match s with
  | "" => Some 0
  | _ =>
      s ← expect "."%char s;
      '(us, s) ← read_digits 6 0 s;
      match s with "" => Some us | _ => None end
  end.

(** [datetime.fromisoformat(s)] on the two spellings [isoformat] emits for
    a naive datetime (any single character may separate date and time);
    [None] stands for [ValueError].  Other spellings Python accepts are
    not modelled and are rejected here. *)
Definition fromisoformat (s : string) : option datetime :=
  '(y, s) ← read_digits 4 0 s;
  s ← expect "-"%char s;
  '(m, s) ← read_digits 2 0 s;
  s ← expect "-"%char s;
  '(d, s) ← read_digits 2 0 s;
  s ← any_char s;
  '(hh, s) ← read_digits 2 0 s;
  s ← expect ":"%char s;
  '(mm, s) ← read_digits 2 0 s;
  s ← expect ":"%char s;
  '(ss, s) ← read_digits 2 0 s;
  us ← read_fraction s;
  let t := mk_datetime y m d hh mm ss us in
  if valid t then Some t else None.

End DateTime.

(** ** Dynamically typed values *)

Module PyVal.

#[local] Set Warnings "-register-all".

(** The values a metadata bag or a serialised record holds: the JSON-like
    fragment of Python's [Any].  Nested containers are held by value. *)
Inductive pyval :=
| VNone
| VBool (b : bool)
| VInt (n : Z)
| VStr (s : string)
| VList (items : list pyval)
| VDict (entries : list (string * pyval)).

(** A [dict] with string keys, in insertion order. *)
Abbreviation dict := (list (string * pyval)) (only parsing).

(** [d.get(k)] as an option. *)
Fixpoint dict_get (k : string) (d : dict) : option pyval :=
  match d with
  | [] => None
  | (k', v) :: r => if String.eqb k k' then Some v else dict_get k r
  end.

(** [d[k] = v]: overwrite in place, or append a new key. *)
Fixpoint dict_set (k : string) (v : pyval) (d : dict) : dict :=
  match d with
  | [] => [(k, v)]
  | (k', v') :: r =>
      if String.eqb k k' then (k', v) :: r else (k', v') :: dict_set k v r
  end.

(** [bool(v)]. *)
Definition truthy (v : pyval) : bool :=
  match v with
  | VNone => false
  | VBool b => b
  | VInt n => negb (n =? 0)
  | VStr s => PyStr.truthy s
  | VList l => match l with [] => false | _ => true end
  | VDict d => match d with [] => false | _ => true end
  end.

(** [repr(v)].  A string is shown between single quotes; the escapes
    Python adds for quotes, backslashes and control characters inside it
    are not modelled. *)
Fixpoint repr (v : pyval) : string :=
  match v with
  | VNone => "None"
  | VBool true => "True"
  | VBool false => "False"
  | VInt n => PyStr.of_int n
  | VStr s => "'" +:+ s +:+ "'"
  | VList l => "[" +:+ PyStr.join ", " (List.map repr l) +:+ "]"
  | VDict d =>
      "{" +:+ PyStr.join ", "
                (List.map (fun kv => "'" +:+ fst kv +:+ "': " +:+ repr (snd kv)) d)
          +:+ "}"
  end.

(** [str(v)], which is what an f-string field shows. *)
Definition str (v : pyval) : string :=
  match v with
  | VStr s => s
  | _ => repr v
  end.

Definition as_str (v : pyval) : option string :=
  match v with VStr s => Some s | _ => None end.
Definition as_bool (v : pyval) : option bool :=
  match v with VBool b => Some b | _ => None end.
Definition as_int (v : pyval) : option Z :=
  match v with VInt n => Some n | _ => None end.
Definition as_list (v : pyval) : option (list pyval) :=
  match v with VList l => Some l | _ => None end.
Definition as_dict (v : pyval) : option dict :=
  match v with VDict d => Some d | _ => None end.
Definition as_opt_str (v : pyval) : option (option string) :=
  match v with VNone => Some None | VStr s => Some (Some s) | _ => None end.

End PyVal.

(** ** The document model ([sopgen/models.py]) *)

Import PyVal.
Import DateTime.

(** Calling a dataclass constructor with the entries of [data] as keyword
    arguments: a key that is not a field name raises [TypeError]. *)
Definition kwargs_ok (fields : list string) (d : dict) : bool :=
  forallb (fun kv => existsb (String.eqb (fst kv)) fields) d.

(** A keyword argument that has a default value. *)
Definition field_or (dflt : pyval) (k : string) (d : dict) : pyval :=
  default dflt (dict_get k d).

(** The comprehension [[f(x) for x in l]] when [f] may raise. *)
Fixpoint traverse {A B} (f : A -> option B) (l : list A) : option (list B) :=
  match l with
  | [] => Some []
  | x :: r => y ← f x; ys ← traverse f r; Some (y :: ys)
  end.

(** A location of the store: the identity of a Python object. *)
Abbreviation loc := nat (only parsing).

(** *** class Section *)

Module Section.

(** The dataclass, over the representation [M] of its [metadata] field: a
    location for an object in the store, a [dict] for a value read back. *)
Record t (M : Type) := mk {
  title : string;
  content : string;
  content_type : string;
  ai_generated : bool;
  locked : bool;
  order : Z;
  metadata : M
}.
Arguments mk {M}.
Arguments title {M}.
Arguments content {M}.
Arguments content_type {M}.
Arguments ai_generated {M}.
Arguments locked {M}.
Arguments order {M}.
Arguments metadata {M}.

Definition with_title {M} (x : string) (s : t M) : t M :=
  mk x (content s) (content_type s) (ai_generated s) (locked s) (order s) (metadata s).
Definition with_content {M} (x : string) (s : t M) : t M :=
  mk (title s) x (content_type s) (ai_generated s) (locked s) (order s) (metadata s).
Definition with_content_type {M} (x : string) (s : t M) : t M :=
  mk (title s) (content s) x (ai_generated s) (locked s) (order s) (metadata s).
Definition with_ai_generated {M} (x : bool) (s : t M) : t M :=
  mk (title s) (content s) (content_type s) x (locked s) (order s) (metadata s).
Definition with_locked {M} (x : bool) (s : t M) : t M :=
  mk (title s) (content s) (content_type s) (ai_generated s) x (order s) (metadata s).
Definition with_order {M} (x : Z) (s : t M) : t M :=
  mk (title s) (content s) (content_type s) (ai_generated s) (locked s) x (metadata s).
Definition with_metadata {M N} (x : N) (s : t M) : t N :=
  mk (title s) (content s) (content_type s) (ai_generated s) (locked s) (order s) x.

Definition fields : list string :=
  ["title"; "content"; "content_type"; "ai_generated"; "locked"; "order"; "metadata"].

(** [to_dict], that is [asdict(self)]: one entry per field, the metadata
    bag copied. *)
Definition to_dict (s : t dict) : pyval :=
  VDict [("title", VStr (title s));
         ("content", VStr (content s));
         ("content_type", VStr (content_type s));
         ("ai_generated", VBool (ai_generated s));
         ("locked", VBool (locked s));
         ("order", VInt (order s));
         ("metadata", VDict (metadata s))].

(** [from_dict]: the constructor called with the entries of [data] as
    keyword arguments; [None] stands for a raised exception.  The record is typed: an entry of another type than the
    field's annotation is refused here, where Python would store it. *)
Definition from_dict (data : pyval) : option (t dict) :=
  d ← as_dict data;
  if kwargs_ok fields d then
    title ← dict_get "title" d ≫= as_str;
    content ← as_str (field_or (VStr "") "content" d);
    content_type ← as_str (field_or (VStr "text") "content_type" d);
    ai_generated ← as_bool (field_or (VBool false) "ai_generated" d);
    locked ← as_bool (field_or (VBool false) "locked" d);
    order ← as_int (field_or (VInt 0) "order" d);
    metadata ← as_dict (field_or (VDict []) "metadata" d);
    Some (mk title content content_type ai_generated locked order metadata)
  else None.

End Section.

(** *** The store *)

(** The [Section] objects and the metadata dictionaries allocated so far.
    A location is an index; allocation appends. *)
Record store := mk_store {
  objs : list (Section.t loc);
  dicts : list dict
}.

Definition empty_store : store := mk_store [] [].

Definition obj (h : store) (l : loc) : option (Section.t loc) := objs h !! l.

Definition dict_at (h : store) (m : loc) : dict := default [] (dicts h !! m).

Definition alloc_dict (d : dict) (h : store) : loc * store :=
  (length (dicts h), mk_store (objs h) (dicts h ++ [d])).

Definition alloc_section (s : Section.t loc) (h : store) : loc * store :=
  (length (objs h), mk_store (objs h ++ [s]) (dicts h)).

(** An attribute write [sec.x = v] on the object at [l]. *)
Definition update_obj (f : Section.t loc -> Section.t loc) (l : loc) (h : store)
  : store :=
  mk_store (alter f l (objs h)) (dicts h).

(** An item write [d[k] = v] on the dictionary at [m]. *)
Definition update_dict (f : dict -> dict) (m : loc) (h : store) : store :=
  mk_store (objs h) (alter f m (dicts h)).

(** The value of the object at [l], its metadata read from the store. *)
Definition read_section (h : store) (l : loc) : option (Section.t dict) :=
  s ← obj h l; Some (Section.with_metadata (dict_at h (Section.metadata s)) s).

(** The value of a list of [Section] objects. *)
Definition read_sections (h : store) (ls : list loc) : list (Section.t dict) :=
  omap (read_section h) ls.

(** *** class DocumentVersion *)

Module DocumentVersion.

(** The dataclass, over the representation [S] of a section: a location,
    or a value read back. *)
Record t (S : Type) := mk {
  version_id : Z;
  timestamp : datetime;
  user : string;
  role : string;
  changes : string;
  content_snapshot : list S
}.
Arguments mk {S}.
Arguments version_id {S}.
Arguments timestamp {S}.
Arguments user {S}.
Arguments role {S}.
Arguments changes {S}.
Arguments content_snapshot {S}.

Definition fields : list string :=
  ["version_id"; "timestamp"; "user"; "role"; "changes"; "content_snapshot"].

Definition to_dict (v : t (Section.t dict)) : pyval :=
  VDict [("version_id", VInt (version_id v));
         ("timestamp", VStr (isoformat (timestamp v)));
         ("user", VStr (user v));
         ("role", VStr (role v));
         ("changes", VStr (changes v));
         ("content_snapshot", VList (List.map Section.to_dict (content_snapshot v)))].

Definition from_dict (data : pyval) : option (t (Section.t dict)) :=
  d ← as_dict data;
  stamp ← dict_get "timestamp" d ≫= as_str;
  timestamp ← fromisoformat stamp;
  snapshot ← dict_get "content_snapshot" d ≫= as_list;
  content_snapshot ← traverse Section.from_dict snapshot;
  if kwargs_ok fields d then
    version_id ← dict_get "version_id" d ≫= as_int;
    user ← dict_get "user" d ≫= as_str;
    role ← dict_get "role" d ≫= as_str;
    changes ← dict_get "changes" d ≫= as_str;
    Some (mk version_id timestamp user role changes content_snapshot)
  else None.

(** The value of a stored version. *)
Definition read (h : store) (v : t loc) : t (Section.t dict) :=
  mk (version_id v) (timestamp v) (user v) (role v) (changes v)
     (read_sections h (content_snapshot v)).

End DocumentVersion.

(** *** class Document *)

Module Document.

(** The dataclass, over the representation [S] of a section.  The
    document's own [metadata] bag is held by value: no method of the class
    shares or copies it. *)
Record t (S : Type) := mk {
  title : string;
  doc_number : string;
  sections : list S;
  created_by : string;
  created_at : datetime;
  last_modified : datetime;
  versions : list (DocumentVersion.t S);
  approved : bool;
  approver : option string;
  metadata : dict;
  template_name : string
}.
Arguments mk {S}.
Arguments title {S}.
Arguments doc_number {S}.
Arguments sections {S}.
Arguments created_by {S}.
Arguments created_at {S}.
Arguments last_modified {S}.
Arguments versions {S}.
Arguments approved {S}.
Arguments approver {S}.
Arguments metadata {S}.
Arguments template_name {S}.

Definition with_sections {S} (x : list S) (d : t S) : t S :=
  mk (title d) (doc_number d) x (created_by d) (created_at d) (last_modified d)
     (versions d) (approved d) (approver d) (metadata d) (template_name d).
Definition with_last_modified {S} (x : datetime) (d : t S) : t S :=
  mk (title d) (doc_number d) (sections d) (created_by d) (created_at d) x
     (versions d) (approved d) (approver d) (metadata d) (template_name d).
Definition with_versions {S} (x : list (DocumentVersion.t S)) (d : t S) : t S :=
  mk (title d) (doc_number d) (sections d) (created_by d) (created_at d)
     (last_modified d) x (approved d) (approver d) (metadata d) (template_name d).
Definition with_approved {S} (x : bool) (d : t S) : t S :=
  mk (title d) (doc_number d) (sections d) (created_by d) (created_at d)
     (last_modified d) (versions d) x (approver d) (metadata d) (template_name d).
Definition with_approver {S} (x : option string) (d : t S) : t S :=
  mk (title d) (doc_number d) (sections d) (created_by d) (created_at d)
     (last_modified d) (versions d) (approved d) x (metadata d) (template_name d).

(** [Document(title=..., doc_number=..., created_by=...)]: the other fields
    take their defaults; [t_created] and [t_modified] are the two readings
    of the clock made by the default factories. *)
Definition new (title doc_number created_by : string)
  (t_created t_modified : datetime) : t loc :=
  mk title doc_number [] created_by t_created t_modified [] false None [] "".

(** A [Document] object together with the store its sections live in. *)
Record state := mk_state {
  heap : store;
  self : t loc
}.

(** The value of the document: what [==] and the exporters see. *)
Definition read (st : state) : t (Section.t dict) :=
  let d := self st in
  mk (title d) (doc_number d) (read_sections (heap st) (sections d))
     (created_by d) (created_at d) (last_modified d)
     (List.map (DocumentVersion.read (heap st)) (versions d))
     (approved d) (approver d) (metadata d) (template_name d).

(** The key of [self.sections.sort(key=lambda x: x.order)]. *)
Definition order_of (h : store) (l : loc) : Z :=
  default 0 (Section.order <$> obj h l).

(** [list.sort] is stable: an element goes in front of the first element
    already placed whose key is not smaller. *)
Fixpoint insert_sorted (key : loc -> Z) (x : loc) (l : list loc) : list loc :=
  match l with
  | [] => [x]
  | y :: r => if key x <=? key y then x :: l else y :: insert_sorted key x r
  end.

Fixpoint sort_by (key : loc -> Z) (l : list loc) : list loc :=
  match l with
  | [] => []
  | x :: r => insert_sorted key x (sort_by key r)
  end.

(** [add_section(title, content, content_type, order)]; [order = None] is
    the default of the parameter.  The new [Section] gets a metadata
    dictionary of its own. *)
Definition add_section (title content content_type : string) (order : option Z)
  (st : state) : state :=
  let d := self st in
  let order :=
    match order with
    | None => Z.of_nat (length (sections d))
    | Some o => o
    end in
  let '(m, h1) := alloc_dict [] (heap st) in
  let '(l, h2) :=
    alloc_section (Section.mk title content content_type false false order m) h1 in
  mk_state h2 (with_sections (sort_by (order_of h2) (sections d ++ [l])) d).

(** [_reorder_sections]: [sec.order = idx] for each section in turn,
    counting from [idx]. *)
Fixpoint reorder_from (idx : nat) (ls : list loc) (h : store) : store :=
  match ls with
  | [] => h
  | l :: r => reorder_from (S idx) r (update_obj (Section.with_order (Z.of_nat idx)) l h)
  end.

Definition _reorder_sections (st : state) : state :=
  mk_state (reorder_from 0 (sections (self st)) (heap st)) (self st).

Definition has_title (h : store) (title : string) (l : loc) : bool :=
  match obj h l with
  | Some s => String.eqb (Section.title s) title
  | None => false
  end.

(** [remove_section(title)]. *)
Definition remove_section (title : string) (st : state) : state :=
  let kept := List.filter (fun l => negb (has_title (heap st) title l))
                          (sections (self st)) in
  _reorder_sections (mk_state (heap st) (with_sections kept (self st))).

(** [get_section(title)]: the first section with that title. *)
Definition get_section (title : string) (st : state) : option loc :=
  List.find (has_title (heap st) title) (sections (self st)).

(** [update_section(title, content, ai_generated)], with the reading [now]
    of the clock; the boolean is the returned value. *)
Definition update_section (now : datetime) (title content : string)
  (ai_generated : bool) (st : state) : bool * state :=
  match get_section title st with
  | Some l =>
      match obj (heap st) l with
      | Some s =>
          if negb (Section.locked s) then
            (true,
             mk_state
               (update_obj (fun s => Section.with_ai_generated ai_generated
                                       (Section.with_content content s)) l (heap st))
               (with_last_modified now (self st)))
          else (false, st)
      | None => (false, st)
      end
  | None => (false, st)
  end.

(** The copy of one section made by [log_version]: [asdict(sec)] copies
    the fields, the metadata bag included, and the [Section] constructor
    called on them makes a new object. *)
Definition copy_section (l : loc) (h : store) : option loc * store :=
  match obj h l with
  | Some s =>
      let '(m, h1) := alloc_dict (dict_at h (Section.metadata s)) h in
      let '(l', h2) := alloc_section (Section.with_metadata m s) h1 in
      (Some l', h2)
  | None => (None, h)
  end.

(** The snapshot comprehension of [log_version], over [self.sections]. *)
Fixpoint copy_sections (ls : list loc) (h : store) : list loc * store :=
  match ls with
  | [] => ([], h)
  | l :: r =>
      let '(o, h1) := copy_section l h in
      let '(rest, h2) := copy_sections r h1 in
      (match o with Some l' => l' :: rest | None => rest end, h2)
  end.

(** [log_version(user, role, changes)]; [t_stamp] is the reading of the
    clock stored in the version, [t_modified] the later one stored in
    [last_modified]. *)
Definition log_version (t_stamp t_modified : datetime) (user role changes : string)
  (st : state) : state :=
  let d := self st in
  let version_id := Z.of_nat (length (versions d)) + 1 in
  let '(snapshot, h) := copy_sections (sections d) (heap st) in
  let v := DocumentVersion.mk version_id t_stamp user role changes snapshot in
  mk_state h (with_last_modified t_modified (with_versions (versions d ++ [v]) d)).

(** The loop [for sec in self.sections: sec.locked = True]. *)
Definition lock_all (ls : list loc) (h : store) : store :=
  fold_left (fun h l => update_obj (Section.with_locked true) l h) ls h.

(** [approve(user)]. *)
Definition approve (t_stamp t_modified : datetime) (user : string) (st : state)
  : state :=
  let d := with_approver (Some user) (with_approved true (self st)) in
  let h := lock_all (sections d) (heap st) in
  log_version t_stamp t_modified user "approver" "Document approved" (mk_state h d).

Definition fields : list string :=
  ["title"; "doc_number"; "sections"; "created_by"; "created_at"; "last_modified";
   "versions"; "approved"; "approver"; "metadata"; "template_name"].

(** [to_dict]. *)
Definition to_dict (d : t (Section.t dict)) : pyval :=
  VDict [("title", VStr (title d));
         ("doc_number", VStr (doc_number d));
         ("sections", VList (List.map Section.to_dict (sections d)));
         ("created_by", VStr (created_by d));
         ("created_at", VStr (isoformat (created_at d)));
         ("last_modified", VStr (isoformat (last_modified d)));
         ("versions", VList (List.map DocumentVersion.to_dict (versions d)));
         ("approved", VBool (approved d));
         ("approver", match approver d with Some u => VStr u | None => VNone end);
         ("metadata", VDict (metadata d));
         ("template_name", VStr (template_name d))].

(** [from_dict]; [None] stands for a raised exception ([KeyError] for a
    missing timestamp or list, [ValueError] for a malformed timestamp,
    [TypeError] for a bad keyword). *)
Definition from_dict (data : pyval) : option (t (Section.t dict)) :=
  d ← as_dict data;
  created ← dict_get "created_at" d ≫= as_str;
  created_at ← fromisoformat created;
  modified ← dict_get "last_modified" d ≫= as_str;
  last_modified ← fromisoformat modified;
  secs ← dict_get "sections" d ≫= as_list;
  sections ← traverse Section.from_dict secs;
  vers ← dict_get "versions" d ≫= as_list;
  versions ← traverse DocumentVersion.from_dict vers;
  if kwargs_ok fields d then
    title ← dict_get "title" d ≫= as_str;
    doc_number ← as_str (field_or (VStr "") "doc_number" d);
    created_by ← as_str (field_or (VStr "") "created_by" d);
    approved ← as_bool (field_or (VBool false) "approved" d);
    approver ← as_opt_str (field_or VNone "approver" d);
    metadata ← as_dict (field_or (VDict []) "metadata" d);
    template_name ← as_str (field_or (VStr "") "template_name" d);
    Some (mk title doc_number sections created_by created_at last_modified
             versions approved approver metadata template_name)
  else None.

End Document.

(** ** The exporter ([sopgen/export.py]) *)

(** What a call yields: a returned value or a raised exception. *)
Inductive exn :=
| ValueError (msg : string)
| IndexError.

Inductive outcome (A : Type) :=
| Return (a : A)
| Raise (e : exn).
Arguments Return {A}.
Arguments Raise {A}.

Definition bind_outcome {A B} (x : outcome A) (k : A -> outcome B) : outcome B :=
  match x with
  | Return a => k a
  | Raise e => Raise e
  end.

Abbreviation bytes := (list Byte.byte) (only parsing).

Module DocumentExporter.

Import PyStr.

(** The exporter reads a document and never writes to it: it works on the
    value of the document. *)
Definition doc := Document.t (Section.t dict).

(** [self.supported_formats]. *)
Definition supported_formats : list string :=
  ["docx"; "pdf"; "html"; "excel"; "markdown"].

(** The test [if doc.metadata.get(key)] together with the formatted field
    [{doc.metadata[key]}] of the line it guards. *)
Definition metadata_line (label key : string) (d : doc) : list string :=
  match dict_get key (Document.metadata d) with
  | Some v =>
      if PyVal.truthy v then ["**" +:+ label +:+ ":** " +:+ PyVal.str v +:+ nl]
      else []
  | None => []
  end.

(** The body of the loop of [to_markdown] for one section: the lines it
    appends to [md_lines]. *)
Definition markdown_section (sec : Section.t dict) : list string :=
  if is_blank (Section.content sec) then []
  else
    let ty := Section.content_type sec in
    let c := Section.content sec in
    ["## " +:+ Section.title sec +:+ nl]
    ++ (if String.eqb ty "text" then [c]
        else if String.eqb ty "image" then ["![" +:+ Section.title sec +:+ "](" +:+ c +:+ ")"]
        else if String.eqb ty "table" then [c]
        else if String.eqb ty "flowchart" then ["```mermaid" +:+ nl +:+ c +:+ nl +:+ "```"]
        else if String.eqb ty "latex" then ["$$" +:+ nl +:+ c +:+ nl +:+ "$$"]
        else [])
    ++ [nl +:+ nl].

Definition markdown_header (d : doc) : list string :=
  ["# " +:+ Document.title d +:+ nl]
  ++ (if truthy (Document.doc_number d)
      then ["**Document Number:** " +:+ Document.doc_number d +:+ nl] else [])
  ++ metadata_line "Company" "company" d
  ++ metadata_line "Revision" "revision" d
  ++ metadata_line "Effective Date" "effective_date" d
  ++ [nl +:+ "---" +:+ nl +:+ nl].

Definition markdown_footer (now : datetime) (d : doc) : list string :=
  ["---" +:+ nl;
   nl +:+ "*Document generated on " +:+ strftime_seconds now +:+ "*" +:+ nl]
  ++ (if truthy (Document.created_by d)
      then ["*Created by: " +:+ Document.created_by d +:+ "*" +:+ nl] else []).

(** [to_markdown(doc)]; [now] is the reading of the clock shown in the
    footer. *)
Definition to_markdown (now : datetime) (d : doc) : string :=
  join nl (markdown_header d
           ++ flat_map markdown_section (Document.sections d)
           ++ markdown_footer now d).

(** The workbook [to_excel] builds through the spreadsheet writer: the
    sheets in the order of [add_worksheet], each with the cells written.
    The writer's own checks on sheet names are not modelled. *)
Inductive cell_format := Plain | Bold.

Record cell := mk_cell {
  cell_row : nat;
  cell_col : nat;
  cell_value : string;
  cell_fmt : cell_format
}.

Record worksheet := mk_worksheet {
  sheet_name : string;
  sheet_cells : list cell
}.

Definition workbook := list worksheet.

(** The stripped non-blank lines of a table section. *)
Definition table_lines (content : string) : list string :=
  List.filter truthy (List.map strip (split nl content)).

Definition pipe_cells (line : string) : list string :=
  List.map strip (split "|" (strip_pipe line)).

Definition comma_cells (line : string) : list string :=
  List.map strip (split "," line).

(** Headers and data rows of a table, as [to_excel] parses them: a markup
    table when the first line starts with a pipe, comma-separated values
    otherwise.  With no line at all the guard of the first branch fails
    and [lines[0]] of the second raises [IndexError]. *)
Definition parse_table (lines : list string)
  : outcome (list string * list (list string)) :=
  match lines with
  | first :: rest =>
      if startswith "|" first
      then Return (pipe_cells first,
                   List.map pipe_cells (List.filter (startswith "|") (skipn 1 rest)))
      else Return (comma_cells first, List.map comma_cells rest)
  | [] => Raise IndexError
  end.

Definition header_cells (headers : list string) : list cell :=
  imap (fun col h => mk_cell 0 col h Bold) headers.

Definition data_cells (rows : list (list string)) : list cell :=
  List.concat
    (imap (fun i row => imap (fun col v => mk_cell (S i) col v Plain) row) rows).

Definition sheet_name_of (title : string) (sheet_count : nat) : string :=
  if (25 <? String.length title)%nat
  then take 25 title +:+ "_" +:+ of_int (Z.of_nat sheet_count)
  else take 31 title.

(** The loop of [to_excel] over the sections, from the sheets and the
    counter reached so far. *)
Fixpoint excel_sheets (secs : list (Section.t dict)) (sheet_count : nat)
  (done : workbook) : outcome workbook :=
  match secs with
  | [] => Return done
  | sec :: rest =>
      if String.eqb (Section.content_type sec) "table" && truthy (Section.content sec)
      then
        let sheet_count := S sheet_count in
        let name := sheet_name_of (Section.title sec) sheet_count in
        bind_outcome (parse_table (table_lines (Section.content sec)))
          (fun '(headers, rows) =>
             excel_sheets rest sheet_count
               (done ++ [mk_worksheet name (header_cells headers ++ data_cells rows)]))
      else excel_sheets rest sheet_count done
  end.

Definition overview_sheet (d : doc) : worksheet :=
  mk_worksheet "Overview"
    [mk_cell 0 0 "SOP Title" Bold; mk_cell 0 1 (Document.title d) Plain;
     mk_cell 1 0 "Document Number" Bold; mk_cell 1 1 (Document.doc_number d) Plain;
     mk_cell 2 0 "Created" Bold;
     mk_cell 2 1 (strftime_date (Document.created_at d)) Plain].

Definition excel_workbook (d : doc) : outcome workbook :=
  excel_sheets (Document.sections d) 0 [overview_sheet d].

(** [_to_csv(doc)]. *)
Definition _to_csv (d : doc) : string :=
  join nl
    (["# " +:+ Document.title d;
      "# Document Number: " +:+ Document.doc_number d +:+ nl]
     ++ flat_map
          (fun sec =>
             if String.eqb (Section.content_type sec) "table"
                && truthy (Section.content sec)
             then [nl +:+ "# " +:+ Section.title sec; Section.content sec]
             else [])
          (Document.sections d)).

Section Backends.

(** The spreadsheet writer when it can be imported: how it serialises a
    workbook.  [None] stands for [ImportError]. *)
Variable xlsxwriter : option (workbook -> bytes).

(** [to_docx], [to_pdf] and [to_html] drive third-party writers and
    converters over the document; they are kept abstract. *)
Variable to_docx : doc -> outcome bytes.
Variable to_pdf : doc -> outcome bytes.
Variable to_html : doc -> outcome string.

(** [to_excel(doc)]. *)
Definition to_excel (d : doc) : outcome bytes :=
  match xlsxwriter with
  | Some save => bind_outcome (excel_workbook d) (fun wb => Return (save wb))
  | None => Return (encode_utf8 (_to_csv d))
  end.

(** [export_document(document, format)]; [now] is the reading of the clock
    made by [to_markdown]. *)
Definition export_document (now : datetime) (document : doc) (format : string)
  : outcome bytes :=
  let format := lower format in
  if String.eqb format "docx" then to_docx document
  else if String.eqb format "pdf" then to_pdf document
  else if String.eqb format "html"
       then bind_outcome (to_html document) (fun h => Return (encode_utf8 h))
  else if String.eqb format "excel" then to_excel document
  else if String.eqb format "markdown"
       then Return (encode_utf8 (to_markdown now document))
  else Raise (ValueError ("Unsupported format: " +:+ format)).

End Backends.

End DocumentExporter.

(** ** The translator ([sopgen/translation.py]) *)

Module DocumentTranslator.

Import PyStr.

Definition SUPPORTED_LANGUAGES : list (string * string) :=
  [("Hindi", "hi"); ("Tamil", "ta"); ("Telugu", "te"); ("Gujarati", "gu");
   ("Marathi", "mr"); ("Bengali", "bn");
   ("Spanish", "es"); ("French", "fr"); ("German", "de"); ("Arabic", "ar");
   ("Chinese (Simplified)", "zh-CN"); ("Japanese", "ja");
   ("English", "en")].

Fixpoint lookup_language (name : string) (table : list (string * string))
  : option string :=
  match table with
  | [] => None
  | (n, c) :: r => if String.eqb name n then Some c else lookup_language name r
  end.

(** [get_language_code(language_name)]. *)
Definition get_language_code (language_name : string) : string :=
  default "en" (lookup_language language_name SUPPORTED_LANGUAGES).

(** The language code [translate_text] settles on: the code of a supported
    language name, the argument itself otherwise. *)
Definition target_code_of (target_language : string) : string :=
  match lookup_language target_language SUPPORTED_LANGUAGES with
  | Some code => code
  | None => target_language
  end.

(** The uses of the external translation service, in the order made. *)
Inductive request :=
| Connect (source target : string)
| Translate (source target text : string).

(** One step of the loop of [_split_text]: [acc] is
    [(chunks, current_chunk)]. *)
Definition split_step (max_length : nat) (acc : list string * string) (para : string)
  : list string * string :=
  let '(chunks, current) := acc in
  if (String.length current + String.length para + 2 <=? max_length)%nat
  then (chunks, if truthy current then current +:+ nl +:+ nl +:+ para else para)
  else (if truthy current then chunks ++ [current] else chunks, para).

(** [_split_text(text, max_length)]. *)
Definition _split_text (text : string) (max_length : nat) : list string :=
  let '(chunks, current) :=
    fold_left (split_step max_length) (split (nl +:+ nl) text) ([], "") in
  if truthy current then chunks ++ [current] else chunks.

Section Service.

(** The service: whether [GoogleTranslator(source, target)] can be built
    (it raises otherwise), and what [translator.translate(text)] returns
    ([None] when it raises). *)
Variable connects : string -> string -> bool.
Variable service : string -> string -> string -> option string.

(** The loop over the chunks of a long text: the translated chunks, or
    [None] when a call raised, with the requests made. *)
Fixpoint translate_chunks (source target : string) (chunks : list string)
  : option (list string) * list request :=
  match chunks with
  | [] => (Some [], [])
  | chunk :: rest =>
      if truthy (strip chunk) then
        match service source target chunk with
        | Some tr =>
            let '(r, log) := translate_chunks source target rest in
            (cons tr <$> r, Translate source target chunk :: log)
        | None => (None, [Translate source target chunk])
        end
      else
        let '(r, log) := translate_chunks source target rest in
        (cons chunk <$> r, log)
  end.

(** [translate_text(text, target_language, source_language)]: the string
    returned, and the requests made to the service. *)
Definition translate_text (text target_language source_language : string)
  : string * list request :=
  if is_blank text then (text, [])
  else
    let target_code := target_code_of target_language in
    if String.eqb target_code "en" then (text, [])
    else
      let failed := "[Translation Error: " +:+ take 100 text +:+ "...]" in
      let opened := [Connect source_language target_code] in
      if negb (connects source_language target_code) then (failed, opened)
      else if (String.length text <=? 4500)%nat then
        match service source_language target_code text with
        | Some tr => (tr, opened ++ [Translate source_language target_code text])
        | None => (failed, opened ++ [Translate source_language target_code text])
        end
      else
        match translate_chunks source_language target_code (_split_text text 4500) with
        | (Some parts, log) => (join (nl +:+ nl) parts, opened ++ log)
        | (None, log) => (failed, opened ++ log)
        end.

End Service.

End DocumentTranslator.

(** ** Histories of a document *)

Module Session.

Import Document.

(** What a caller does to a live document: a call of one of its methods,
    or an attribute write on one of its sections, [doc.sections[i].x = v],
    as the editor and the translator of the repository make them. *)
Inductive action :=
| AddSection (title content content_type : string) (order : option Z)
| RemoveSection (title : string)
| UpdateSection (now : datetime) (title content : string) (ai_generated : bool)
| LogVersion (t_stamp t_modified : datetime) (user role changes : string)
| Approve (t_stamp t_modified : datetime) (user : string)
| SetTitle (i : nat) (x : string)
| SetContent (i : nat) (x : string)
| SetContentType (i : nat) (x : string)
| SetAiGenerated (i : nat) (x : bool)
| SetLocked (i : nat) (x : bool)
| SetOrder (i : nat) (x : Z)
| SetMetadataItem (i : nat) (key : string) (v : pyval)
| SetMetadata (i : nat) (d : dict).

(** The calls of the public methods of [Document]. *)
Definition is_method (a : action) : bool :=
  match a with
  | AddSection _ _ _ _ | RemoveSection _ | UpdateSection _ _ _ _
  | LogVersion _ _ _ _ _ | Approve _ _ _ => true
  | _ => false
  end.

(** [doc.sections[i].x = v]; with [i] out of range the write raises and
    nothing changes. *)
Definition write_section (i : nat) (f : Section.t loc -> Section.t loc) (st : state)
  : state :=
  match sections (self st) !! i with
  | Some l => mk_state (update_obj f l (heap st)) (self st)
  | None => st
  end.

(** [doc.sections[i].metadata[key] = v]: the dictionary is changed in
    place. *)
Definition write_metadata_item (i : nat) (key : string) (v : pyval) (st : state)
  : state :=
  match sections (self st) !! i ≫= obj (heap st) with
  | Some s => mk_state (update_dict (dict_set key v) (Section.metadata s) (heap st)) (self st)
  | None => st
  end.

(** [doc.sections[i].metadata = {...}]: a new dictionary is bound. *)
Definition write_metadata (i : nat) (d : dict) (st : state) : state :=
  match sections (self st) !! i with
  | Some l =>
      let '(m, h) := alloc_dict d (heap st) in
      mk_state (update_obj (Section.with_metadata m) l h) (self st)
  | None => st
  end.

Definition step (a : action) (st : state) : state :=
  match a with
  | AddSection title content content_type order =>
      add_section title content content_type order st
  | RemoveSection title => remove_section title st
  | UpdateSection now title content ai_generated =>
      snd (update_section now title content ai_generated st)
  | LogVersion t_stamp t_modified user role changes =>
      log_version t_stamp t_modified user role changes st
  | Approve t_stamp t_modified user => approve t_stamp t_modified user st
  | SetTitle i x => write_section i (Section.with_title x) st
  | SetContent i x => write_section i (Section.with_content x) st
  | SetContentType i x => write_section i (Section.with_content_type x) st
  | SetAiGenerated i x => write_section i (Section.with_ai_generated x) st
  | SetLocked i x => write_section i (Section.with_locked x) st
  | SetOrder i x => write_section i (Section.with_order x) st
  | SetMetadataItem i key v => write_metadata_item i key v st
  | SetMetadata i d => write_metadata i d st
  end.

Definition run (acts : list action) (st : state) : state :=
  fold_left (fun st a => step a st) acts st.

(** *** Well-formed states *)

(** A reference to a [Section] object is valid when the object and its
    metadata dictionary are allocated. *)
Definition valid_ref (h : store) (l : loc) : bool :=
  match obj h l with
  | Some s => (Section.metadata s <? length (dicts h))%nat
  | None => false
  end.

Definition mem (l : loc) (ls : list loc) : bool := existsb (Nat.eqb l) ls.

Fixpoint distinct (ls : list loc) : bool :=
  match ls with
  | [] => true
  | l :: r => negb (mem l r) && distinct r
  end.

(** The objects held by the stored snapshots. *)
Definition snapshot_refs (d : t loc) : list loc :=
  flat_map DocumentVersion.content_snapshot (versions d).

(** The metadata dictionaries of the sections in [ls]. *)
Definition metadata_refs (h : store) (ls : list loc) : list loc :=
  omap (fun l => Section.metadata <$> obj h l) ls.

(** Every reference held by the document is valid, no [Section] object is
    listed twice in [sections], and no stored snapshot shares an object or
    a dictionary with the live sections. *)
Definition wf (st : state) : bool :=
  let h := heap st in
  let d := self st in
  forallb (valid_ref h) (sections d)
  && distinct (sections d)
  && forallb (valid_ref h) (snapshot_refs d)
  && forallb (fun l => negb (mem l (sections d))) (snapshot_refs d)
  && forallb (fun m => negb (mem m (metadata_refs h (sections d))))
             (metadata_refs h (snapshot_refs d)).

(** *** Properties of a state *)

(** Every section of the document is locked. *)
Definition all_locked (st : state) : bool :=
  forallb Section.locked (Document.sections (read st)).

(** The invariant of approval: an approved document has only locked
    sections. *)
Definition approval_invariant (st : state) : bool :=
  implb (approved (self st)) (all_locked st).

(** The [order] of each section is its index in [sections]. *)
Definition orders (st : state) : list Z :=
  List.map Section.order (Document.sections (read st)).

Definition order_is_index (st : state) : bool :=
  bool_decide (orders st = seqZ 0 (Z.of_nat (length (sections (self st))))).

(** [add_section] is never called on an approved document along [acts]. *)
Fixpoint adds_before_approval (acts : list action) (st : state) : bool :=
  match acts with
  | [] => true
  | a :: r =>
      (match a with
       | AddSection _ _ _ _ => negb (approved (self st))
       | _ => true
       end)
      && adds_before_approval r (step a st)
  end.

(** The calls that keep [order] equal to the index: [remove_section], and
    [add_section] with the [order] argument left out. *)
Definition keeps_order (a : action) : bool :=
  match a with
  | AddSection _ _ _ None | RemoveSection _ => true
  | _ => false
  end.

(** The timestamps of a document are datetimes the constructor of
    [datetime] accepts. *)
Definition timestamps_valid {S} (d : t S) : bool :=
  valid (created_at d) && valid (last_modified d)
  && forallb (fun v => valid (DocumentVersion.timestamp v)) (versions d).

End Session.

(** ** Concrete documents and environments *)

Module Examples.

Import Document Session.

Definition t_a : datetime := mk_datetime 2024 2 29 13 5 9 0.
Definition t_b : datetime := mk_datetime 2024 2 29 13 5 10 0.
Definition t_c : datetime := mk_datetime 2024 2 29 13 5 9 250000.

(** A new document, with no section yet. *)
Definition fresh : state :=
  mk_state empty_store (Document.new "Thermal Cycling Test" "SOP-001" "author" t_a t_a).

(** The scenario of the specification: "Purpose" with content, "Scope"
    without. *)
Definition thermal : state :=
  run [AddSection "Purpose" "P" "text" None; AddSection "Scope" "" "text" None] fresh.

(** A table section whose content is three spaces. *)
Definition blank_table : state :=
  run [AddSection "Limits" "   " "table" None] fresh.

(** A document from a template with company metadata, edited, annotated,
    logged and approved. *)
Definition released : state :=
  run [AddSection "Purpose" "Define the thermal cycling test." "text" (Some 0);
       AddSection "Limits" "Cycle,Low,High" "table" (Some 1);
       SetMetadataItem 0 "language" (VStr "en");
       LogVersion t_a t_c "author" "doer" "first draft";
       Approve t_b t_b "qa"]
      (mk_state empty_store
         (Document.mk "Thermal Cycling Test" "SOP-001" [] "author" t_a t_a [] false None
            [("company", VStr "ACME"); ("revision", VStr "Rev 1.0");
             ("standards", VList [VStr "IEC 61215"; VStr "IEC 61730"])]
            "pv-module")).

(** Renderers standing for the third-party back ends, for statements
    about the formats that do not use them. *)
Definition no_docx (d : DocumentExporter.doc) : outcome bytes := Return [].
Definition no_pdf (d : DocumentExporter.doc) : outcome bytes := Return [].
Definition no_html (d : DocumentExporter.doc) : outcome string := Return "".
Definition plain_save (wb : DocumentExporter.workbook) : bytes := [].

(** A translation service that answers every request. *)
Definition echo_connects (source target : string) : bool := true.
Definition echo_service (source target text : string) : option string :=
  Some ("<" +:+ target +:+ ">" +:+ text).

End Examples.

(** ** Notions used in the statements and proofs *)

Section Notions.

Import Document Session.

(** UTF-8 can be decoded: the first byte tells the width. *)
Definition decode_char (bs : bytes) : option (ascii * bytes) :=
  match bs with
  | [] => None
  | b :: r =>
      let n := N_of_ascii (ascii_of_byte b) in
      if (n <? 128)%N then Some (ascii_of_byte b, r)
      else match r with
           | b' :: r' =>
               Some (ascii_of_N ((n - 192) * 64 + (N_of_ascii (ascii_of_byte b') - 128))%N, r')
           | [] => None
           end
  end.

(** [wf] spelled out. *)
Record WF (st : state) : Prop := mk_WF {
  wf_live : forall l, l ∈ sections (self st) -> valid_ref (heap st) l = true;
  wf_distinct : NoDup (sections (self st));
  wf_snapshot : forall l, l ∈ snapshot_refs (self st) -> valid_ref (heap st) l = true;
  wf_apart : forall l, l ∈ snapshot_refs (self st) -> l ∉ sections (self st);
  wf_apart_metadata :
    forall l s l' s',
      l ∈ snapshot_refs (self st) -> obj (heap st) l = Some s ->
      l' ∈ sections (self st) -> obj (heap st) l' = Some s' ->
      Section.metadata s <> Section.metadata s'
}.

(** [st'] comes from [st] by writes to live sections and their
    dictionaries and by allocations: everything else in the store is as it
    was, the live sections of [st'] are live sections of [st] or new
    objects, and the versions added hold new objects only. *)
Record extends (st st' : state) : Prop := mk_extends {
  ext_objs : (length (objs (heap st)) <= length (objs (heap st')))%nat;
  ext_dicts : (length (dicts (heap st)) <= length (dicts (heap st')))%nat;
  ext_obj_frame :
    forall l, (l < length (objs (heap st)))%nat -> l ∉ sections (self st) ->
              obj (heap st') l = obj (heap st) l;
  ext_dict_frame :
    forall m, (m < length (dicts (heap st)))%nat ->
              m ∉ metadata_refs (heap st) (sections (self st)) ->
              dicts (heap st') !! m = dicts (heap st) !! m;
  ext_live :
    forall l, l ∈ sections (self st') ->
              (l ∈ sections (self st) \/ (length (objs (heap st)) <= l)%nat)
              /\ valid_ref (heap st') l = true;
  ext_live_metadata :
    forall l s', l ∈ sections (self st') -> obj (heap st') l = Some s' ->
                 Section.metadata s' ∈ metadata_refs (heap st) (sections (self st))
                 \/ (length (dicts (heap st)) <= Section.metadata s')%nat;
  ext_distinct : NoDup (sections (self st'));
  ext_versions :
    exists new,
      versions (self st') = versions (self st) ++ new
      /\ forall v l, v ∈ new -> l ∈ DocumentVersion.content_snapshot v ->
           (length (objs (heap st)) <= l)%nat
           /\ (l ∉ sections (self st'))
           /\ valid_ref (heap st') l = true
           /\ forall s, obj (heap st') l = Some s ->
                (length (dicts (heap st)) <= Section.metadata s)%nat
                /\ forall l' s', l' ∈ sections (self st') -> obj (heap st') l' = Some s' ->
                                 Section.metadata s <> Section.metadata s'
}.

(** The stored versions of [st] are still there in [st'], with the same
    value, and [st'] is well formed. *)
Definition keeps_history (st st' : state) : Prop :=
  WF st'
  /\ exists new,
       versions (self st') = versions (self st) ++ new
       /\ forall v, v ∈ versions (self st) ->
                    DocumentVersion.read (heap st') v = DocumentVersion.read (heap st) v.

(** [h'] comes from [h] by attribute writes, other than to [metadata], on
    objects among [L]. *)
Definition retouch (L : list loc) (h h' : store) : Prop :=
  dicts h' = dicts h
  /\ length (objs h') = length (objs h)
  /\ (forall l, l ∉ L -> obj h' l = obj h l)
  /\ (forall l, Section.metadata <$> obj h' l = Section.metadata <$> obj h l).

(** [h'] comes from [h] by allocations only. *)
Definition grows (h h' : store) : Prop :=
  exists no nd, objs h' = objs h ++ no /\ dicts h' = dicts h ++ nd.

(** [l] is the first section of the document titled [title]. *)
Definition first_titled (st : state) (title : string) (l : loc) : Prop :=
  exists before after,
    sections (self st) = before ++ l :: after
    /\ (forall l', l' ∈ before -> has_title (heap st) title l' = false)
    /\ has_title (heap st) title l = true.

(** The state [approve] hands to [log_version]. *)
Definition approve_locked (user : string) (st : state) : state :=
  let d := with_approver (Some user) (with_approved true (self st)) in
  mk_state (lock_all (sections d) (heap st)) d.

(** The live sections after [st'] are live sections of [st] with the same
    lock bit. *)
Definition same_locks (st st' : state) : Prop :=
  approved (self st') = approved (self st)
  /\ forall l s', l ∈ sections (self st') -> obj (heap st') l = Some s' ->
       exists s, l ∈ sections (self st) /\ obj (heap st) l = Some s
                 /\ Section.locked s' = Section.locked s.

(** Every character of [s] satisfies [p]. *)
Fixpoint all_chars (p : ascii -> bool) (s : string) : bool :=
  match s with
  | "" => true
  | String c r => p c && all_chars p r
  end.

End Notions.

(** * Properties *)

(** ** Strings *)

#[local] Arguments String.append !s1 s2 : simpl nomatch.

Section StringFacts.

Lemma append_nil_r (s : string) : s +:+ "" = s.
Proof. induction s as [|c s IH]; simpl; [reflexivity | now rewrite IH]. Qed.

Lemma append_assoc (a b c : string) : (a +:+ b) +:+ c = a +:+ (b +:+ c).
Proof. induction a as [|x a IH]; simpl; [reflexivity | now rewrite IH]. Qed.

Lemma length_append (a b : string) :
  String.length (a +:+ b) = (String.length a + String.length b)%nat.
Proof. induction a as [|x a IH]; simpl; [reflexivity | now rewrite IH]. Qed.

(** Cancellation of a common suffix. *)
Lemma append_inv_tail (a b r : string) : a +:+ r = b +:+ r -> a = b.
Proof.
  revert b. induction a as [|x a IH]; intros [|y b] H; simpl in H.
  - reflexivity.
  - apply (f_equal String.length) in H. simpl in H.
    rewrite length_append in H. lia.
  - apply (f_equal String.length) in H. simpl in H.
    rewrite length_append in H. lia.
  - injection H as -> H. f_equal. now apply IH.
Qed.

Lemma append_inv_head (p a b : string) : p +:+ a = p +:+ b -> a = b.
Proof. induction p as [|x p IH]; simpl; intros H; [assumption|]. injection H. exact IH. Qed.

(** [join] over a concatenation of two non-empty lists. *)
Lemma join_app (sep : string) (xs ys : list string) :
  xs <> [] -> ys <> [] ->
  PyStr.join sep (xs ++ ys) = PyStr.join sep xs +:+ sep +:+ PyStr.join sep ys.
Proof.
  unfold PyStr.join. intros Hx Hy.
  induction xs as [|x xs IH]; [congruence|].
  destruct xs as [|x' xs].
  - simpl. destruct ys; [congruence | reflexivity].
  - change (String.concat sep ((x :: x' :: xs) ++ ys))
      with (x +:+ sep +:+ String.concat sep ((x' :: xs) ++ ys)).
    rewrite IH by congruence.
    change (String.concat sep (x :: x' :: xs))
      with (x +:+ sep +:+ String.concat sep (x' :: xs)).
    now rewrite !append_assoc.
Qed.

Lemma lower_char_idempotent (c : ascii) :
  PyStr.lower_char (PyStr.lower_char c) = PyStr.lower_char c.
Proof. destruct c as [[] [] [] [] [] [] [] []]; reflexivity. Qed.

Lemma lower_idempotent (s : string) : PyStr.lower (PyStr.lower s) = PyStr.lower s.
Proof.
  induction s as [|c s IH]; simpl; [reflexivity|].
  now rewrite lower_char_idempotent, IH.
Qed.

Lemma decode_encode_char (c : ascii) (r : bytes) :
  decode_char (PyStr.encode_char c ++ r) = Some (c, r).
Proof. destruct c as [[] [] [] [] [] [] [] []]; reflexivity. Qed.

Lemma encode_utf8_inj (s1 s2 : string) :
  PyStr.encode_utf8 s1 = PyStr.encode_utf8 s2 -> s1 = s2.
Proof.
  revert s2. induction s1 as [|c1 s1 IH]; intros [|c2 s2] H; simpl in H.
  - reflexivity.
  - apply (f_equal decode_char) in H. rewrite decode_encode_char in H. discriminate.
  - apply (f_equal decode_char) in H. rewrite decode_encode_char in H. discriminate.
  - apply (f_equal decode_char) in H. rewrite !decode_encode_char in H.
    injection H as -> H. f_equal. now apply IH.
Qed.

End StringFacts.

(** ** The translator *)

Section TranslatorFacts.

Import DocumentTranslator.

Variable connects : string -> string -> bool.
Variable service : string -> string -> string -> option string.

(** C10.  [translate_text] returns its input unchanged and makes no
    request to the translation service when the text is empty or only
    whitespace, and when the language code it settles on is ["en"]. *)
Theorem translate_text_skips_service (text target_language source_language : string) :
  PyStr.is_blank text = true \/ target_code_of target_language = "en" ->
  translate_text connects service text target_language source_language = (text, []).
Proof.
  intros H. unfold translate_text.
  destruct (PyStr.is_blank text) eqn:Hb; [reflexivity|].
  destruct H as [H | H]; [discriminate|].
  now rewrite H.
Qed.

End TranslatorFacts.

Lemma translate_text_skips_service_witness :
  DocumentTranslator.translate_text Examples.echo_connects Examples.echo_service
    "Wear gloves." "English" "en" = ("Wear gloves.", [])
  /\ DocumentTranslator.translate_text Examples.echo_connects Examples.echo_service
       "   " "Hindi" "en" = ("   ", []).
Proof.
  split.
  - apply (translate_text_skips_service Examples.echo_connects Examples.echo_service).
    right. reflexivity.
  - apply (translate_text_skips_service Examples.echo_connects Examples.echo_service).
    left. reflexivity.
Defined.

(** ** The exporter: dispatch and markdown *)

Section ExporterFacts.

Import DocumentExporter.

Variable xlsxwriter : option (workbook -> bytes).
Variable to_docx : doc -> outcome bytes.
Variable to_pdf : doc -> outcome bytes.
Variable to_html : doc -> outcome string.

Lemma export_document_lower now d (f : string) :
  export_document xlsxwriter to_docx to_pdf to_html now d f
  = export_document xlsxwriter to_docx to_pdf to_html now d (PyStr.lower f).
Proof.
  unfold export_document. now rewrite lower_idempotent.
Qed.

Lemma export_document_markdown now d :
  export_document xlsxwriter to_docx to_pdf to_html now d "markdown"
  = Return (PyStr.encode_utf8 (to_markdown now d)).
Proof. reflexivity. Qed.

(** The part of the markdown text around the time shown in the footer
    does not depend on the clock. *)
Lemma to_markdown_shape d :
  exists before after, forall now,
    to_markdown now d = before +:+ strftime_seconds now +:+ after.
Proof.
  set (body := markdown_header d ++ flat_map markdown_section (Document.sections d)
               ++ ["---" +:+ PyStr.nl]).
  set (tail := if PyStr.truthy (Document.created_by d)
               then ["*Created by: " +:+ Document.created_by d +:+ "*" +:+ PyStr.nl]
               else []).
  exists (PyStr.join PyStr.nl body +:+ PyStr.nl +:+ PyStr.nl +:+ "*Document generated on ").
  exists ("*" +:+ PyStr.nl +:+
          match tail with [] => "" | _ => PyStr.nl +:+ PyStr.join PyStr.nl tail end).
  intros now. unfold to_markdown, markdown_footer. fold tail.
  set (line := PyStr.nl +:+ "*Document generated on " +:+ strftime_seconds now
               +:+ "*" +:+ PyStr.nl).
  replace (markdown_header d ++ flat_map markdown_section (Document.sections d)
           ++ ["---" +:+ PyStr.nl; line] ++ tail)
    with (body ++ (line :: tail)).
  2:{ unfold body. now rewrite <- !app_assoc. }
  rewrite join_app.
  - destruct tail as [|x tl].
    + unfold PyStr.join at 2. simpl String.concat. unfold line.
      now rewrite !append_assoc.
    + change (PyStr.join PyStr.nl (line :: x :: tl))
        with (line +:+ PyStr.nl +:+ PyStr.join PyStr.nl (x :: tl)).
      unfold line. now rewrite !append_assoc.
  - unfold body. destruct (markdown_header d ++ flat_map markdown_section (Document.sections d));
      simpl; congruence.
  - congruence.
Qed.

(** C8, as the code has it.  The markdown export of a document is
    determined by the document and by the clock reading shown in its
    footer, at the resolution of one second: two exports of the same
    document are byte-identical exactly when the two readings are shown
    alike. *)
Theorem markdown_export_same_iff_same_second (d : doc) (now1 now2 : datetime) :
  export_document xlsxwriter to_docx to_pdf to_html now1 d "markdown"
  = export_document xlsxwriter to_docx to_pdf to_html now2 d "markdown"
  <-> strftime_seconds now1 = strftime_seconds now2.
Proof.
  rewrite !export_document_markdown.
  destruct (to_markdown_shape d) as (before & after & Hshape).
  rewrite !Hshape. split.
  - intros H.
    assert (H1 : PyStr.encode_utf8 (before +:+ strftime_seconds now1 +:+ after)
                 = PyStr.encode_utf8 (before +:+ strftime_seconds now2 +:+ after))
      by congruence.
    exact (append_inv_tail _ _ after
             (append_inv_head before _ _ (encode_utf8_inj _ _ H1))).
  - now intros ->.
Qed.

(** C9, as the code has it.  The tag is compared after lower-casing; the
    five tags of [supported_formats] reach their renderer; every other
    tag raises the unsupported-format error. *)
Theorem export_document_dispatch (now : datetime) (d : doc) :
  (forall f g, PyStr.lower f = PyStr.lower g ->
     export_document xlsxwriter to_docx to_pdf to_html now d f
     = export_document xlsxwriter to_docx to_pdf to_html now d g)
  /\ (forall f, PyStr.lower f = "docx" ->
        export_document xlsxwriter to_docx to_pdf to_html now d f = to_docx d)
  /\ (forall f, PyStr.lower f = "pdf" ->
        export_document xlsxwriter to_docx to_pdf to_html now d f = to_pdf d)
  /\ (forall f, PyStr.lower f = "html" ->
        export_document xlsxwriter to_docx to_pdf to_html now d f
        = bind_outcome (to_html d) (fun h => Return (PyStr.encode_utf8 h)))
  /\ (forall f, PyStr.lower f = "excel" ->
        export_document xlsxwriter to_docx to_pdf to_html now d f
        = to_excel xlsxwriter d)
  /\ (forall f, PyStr.lower f = "markdown" ->
        export_document xlsxwriter to_docx to_pdf to_html now d f
        = Return (PyStr.encode_utf8 (to_markdown now d)))
  /\ (forall f, ~ In (PyStr.lower f) supported_formats ->
        export_document xlsxwriter to_docx to_pdf to_html now d f
        = Raise (ValueError ("Unsupported format: " +:+ PyStr.lower f))).
Proof.
  repeat split; intros f.
  - intros g H. rewrite (export_document_lower now d f), (export_document_lower now d g).
    now rewrite H.
  - intros H. rewrite export_document_lower, H. reflexivity.
  - intros H. rewrite export_document_lower, H. reflexivity.
  - intros H. rewrite export_document_lower, H. reflexivity.
  - intros H. rewrite export_document_lower, H. reflexivity.
  - intros H. rewrite export_document_lower, H. reflexivity.
  - intros H. unfold export_document.
    repeat match goal with
           | |- context [String.eqb ?a ?b] =>
               destruct (String.eqb_spec a b) as [E | _];
               [exfalso; apply H; rewrite E; simpl; tauto|]
           end.
    reflexivity.
Qed.

End ExporterFacts.

(** C8 as stated fails: one second later the same document exports to
    other bytes. *)
Lemma markdown_export_changes_with_clock :
  DocumentExporter.export_document (Some Examples.plain_save) Examples.no_docx
    Examples.no_pdf Examples.no_html Examples.t_a (Document.read Examples.thermal) "markdown"
  <> DocumentExporter.export_document (Some Examples.plain_save) Examples.no_docx
       Examples.no_pdf Examples.no_html Examples.t_b (Document.read Examples.thermal) "markdown".
Proof.
  rewrite markdown_export_same_iff_same_second. vm_compute. discriminate.
Qed.

(** C9 as stated fails: [xlsx] is not accepted as an alias of [excel]. *)
Lemma export_document_rejects_xlsx :
  DocumentExporter.export_document (Some Examples.plain_save) Examples.no_docx
    Examples.no_pdf Examples.no_html Examples.t_a (Document.read Examples.thermal) "xlsx"
  = Raise (ValueError "Unsupported format: xlsx").
Proof. reflexivity. Qed.

(** ** The store *)

Section StoreFacts.

Implicit Types (h : store) (l m : loc) (s : Section.t loc).

Lemma obj_lt h l s : obj h l = Some s -> (l < length (objs h))%nat.
Proof. apply lookup_lt_Some. Qed.

Lemma obj_alloc_section_old s h l :
  (l < length (objs h))%nat -> obj (alloc_section s h).2 l = obj h l.
Proof. intros Hl. unfold obj; simpl. now apply lookup_app_l. Qed.

Lemma obj_alloc_section_new s h :
  obj (alloc_section s h).2 (length (objs h)) = Some s.
Proof. unfold obj; simpl. now apply list_lookup_middle. Qed.

Lemma obj_update_obj f l h l' :
  obj (update_obj f l h) l' = if decide (l = l') then f <$> obj h l else obj h l'.
Proof. unfold obj; simpl. apply list_lookup_alter. Qed.

Lemma obj_update_obj_ne f l h l' : l <> l' -> obj (update_obj f l h) l' = obj h l'.
Proof. intros H. rewrite obj_update_obj. now destruct (decide (l = l')). Qed.

Lemma obj_update_obj_eq f l h s :
  obj h l = Some s -> obj (update_obj f l h) l = Some (f s).
Proof. intros H. rewrite obj_update_obj. destruct (decide (l = l)); [|done]. now rewrite H. Qed.

Lemma length_objs_update_obj f l h : length (objs (update_obj f l h)) = length (objs h).
Proof. simpl. apply length_alter. Qed.

Lemma dict_at_alloc_dict_old d h m :
  (m < length (dicts h))%nat -> dict_at (alloc_dict d h).2 m = dict_at h m.
Proof. intros Hm. unfold dict_at; simpl. now rewrite lookup_app_l. Qed.

Lemma dict_at_alloc_dict_new d h : dict_at (alloc_dict d h).2 (length (dicts h)) = d.
Proof. unfold dict_at; simpl. now rewrite list_lookup_middle. Qed.

(** Reading a section depends on its object and on its dictionary only. *)
Lemma read_section_ext h h' l :
  obj h' l = obj h l ->
  (forall s, obj h l = Some s ->
             dicts h' !! Section.metadata s = dicts h !! Section.metadata s) ->
  read_section h' l = read_section h l.
Proof.
  intros Ho Hd. unfold read_section. rewrite Ho.
  destruct (obj h l) as [s|] eqn:E; [|reflexivity].
  unfold dict_at. cbn [mbind option_bind]. now rewrite (Hd s eq_refl).
Qed.

Lemma read_sections_ext h h' (ls : list loc) :
  (forall l, l ∈ ls -> read_section h' l = read_section h l) ->
  read_sections h' ls = read_sections h ls.
Proof.
  intros H. unfold read_sections. apply list_omap_ext, Forall_Forall2_diag.
  now apply Forall_forall.
Qed.

Lemma read_sections_cons h l (ls : list loc) :
  read_sections h (l :: ls)
  = match read_section h l with
    | Some s => s :: read_sections h ls
    | None => read_sections h ls
    end.
Proof. reflexivity. Qed.

Lemma read_sections_app h (ls ls' : list loc) :
  read_sections h (ls ++ ls') = read_sections h ls ++ read_sections h ls'.
Proof. apply omap_app. Qed.

Lemma valid_ref_spec h l :
  Session.valid_ref h l = true <->
  exists s, obj h l = Some s /\ (Section.metadata s < length (dicts h))%nat.
Proof.
  unfold Session.valid_ref. destruct (obj h l) as [s|].
  - rewrite Nat.ltb_lt. split; [eauto|]. now intros (s' & [= <-] & H).
  - split; [discriminate|]. now intros (s' & [=] & _).
Qed.

Lemma valid_ref_lt h l : Session.valid_ref h l = true -> (l < length (objs h))%nat.
Proof. rewrite valid_ref_spec. intros (s & H & _). now apply obj_lt in H. Qed.

Lemma mem_spec l (ls : list loc) : Session.mem l ls = true <-> l ∈ ls.
Proof.
  unfold Session.mem. rewrite existsb_exists, list_elem_of_In. split.
  - intros (x & Hx & E). apply Nat.eqb_eq in E. now subst.
  - intros H. exists l. split; [assumption | apply Nat.eqb_refl].
Qed.

Lemma mem_false l (ls : list loc) : Session.mem l ls = false <-> l ∉ ls.
Proof.
  rewrite <- mem_spec. destruct (Session.mem l ls); split; congruence.
Qed.

Lemma distinct_spec (ls : list loc) : Session.distinct ls = true <-> NoDup ls.
Proof.
  induction ls as [|l ls IH]; simpl.
  - split; [constructor | reflexivity].
  - rewrite andb_true_iff, negb_true_iff, mem_false, IH, NoDup_cons. tauto.
Qed.

Lemma forallb_elem_of {A} (f : A -> bool) (xs : list A) :
  forallb f xs = true <-> forall x, x ∈ xs -> f x = true.
Proof.
  rewrite forallb_forall. split; intros H x Hx; apply H; now apply list_elem_of_In.
Qed.

Lemma elem_of_metadata_refs h (ls : list loc) m :
  m ∈ Session.metadata_refs h ls <->
  exists l s, l ∈ ls /\ obj h l = Some s /\ Section.metadata s = m.
Proof.
  unfold Session.metadata_refs. rewrite list_elem_of_omap. split.
  - intros (l & Hl & E). destruct (obj h l) as [s|] eqn:Ho; [|discriminate].
    injection E as <-. eauto.
  - intros (l & s & Hl & Ho & <-). exists l. split; [assumption|]. now rewrite Ho.
Qed.

Lemma elem_of_snapshot_refs (d : Document.t loc) l :
  l ∈ Session.snapshot_refs d <->
  exists v, v ∈ Document.versions d /\ l ∈ DocumentVersion.content_snapshot v.
Proof.
  unfold Session.snapshot_refs. rewrite list_elem_of_In, in_flat_map.
  split; intros (v & Hv & Hl); exists v; split;
    try (now apply list_elem_of_In); now apply list_elem_of_In.
Qed.

End StoreFacts.

(** ** Well-formed states *)

Section WellFormed.

Import Document Session.

Lemma wf_spec (st : state) : wf st = true <-> WF st.
Proof.
  unfold wf. rewrite !andb_true_iff, !forallb_elem_of, distinct_spec. split.
  - intros ((((H1 & H2) & H3) & H4) & H5). split; try assumption.
    + intros l Hl. apply mem_false. apply negb_true_iff. now apply H4.
    + intros l s l' s' Hl Hs Hl' Hs' E.
      assert (Hm : Section.metadata s ∈ metadata_refs (heap st) (snapshot_refs (self st)))
        by (apply elem_of_metadata_refs; eauto).
      apply H5 in Hm. apply negb_true_iff, mem_false in Hm. apply Hm.
      apply elem_of_metadata_refs. exists l', s'. auto.
  - intros [H1 H2 H3 H4 H5]. repeat split; try assumption.
    + intros l Hl. apply negb_true_iff, mem_false. now apply H4.
    + intros m Hm. apply negb_true_iff, mem_false. intros Hm'.
      apply elem_of_metadata_refs in Hm as (l & s & Hl & Hs & <-).
      apply elem_of_metadata_refs in Hm' as (l' & s' & Hl' & Hs' & E).
      exact (H5 l s l' s' Hl Hs Hl' Hs' (eq_sym E)).
Qed.

End WellFormed.

(** ** What an action may touch *)

Section Frame.

Import Document Session.

Lemma keeps_history_trans st1 st2 st3 :
  keeps_history st1 st2 -> keeps_history st2 st3 -> keeps_history st1 st3.
Proof.
  intros (_ & new1 & E1 & R1) (W3 & new2 & E2 & R2). split; [assumption|].
  exists (new1 ++ new2). split.
  - now rewrite E2, E1, app_assoc.
  - intros v Hv. rewrite R2, R1; [reflexivity | assumption |].
    rewrite E1. apply elem_of_app. now left.
Qed.

(** A snapshot object of a well-formed state reads the same after an
    extension. *)
Lemma extends_snapshot_read st st' l :
  WF st -> extends st st' -> l ∈ snapshot_refs (self st) ->
  obj (heap st') l = obj (heap st) l
  /\ read_section (heap st') l = read_section (heap st) l.
Proof.
  intros W X Hl.
  pose proof (wf_snapshot _ W l Hl) as Hv.
  apply valid_ref_spec in Hv as (s & Hs & Hm).
  assert (Ho : obj (heap st') l = obj (heap st) l).
  { apply (ext_obj_frame _ _ X); [now apply obj_lt in Hs | now apply (wf_apart _ W)]. }
  split; [assumption|].
  apply read_section_ext; [assumption|].
  intros s0 Hs0. rewrite Hs in Hs0. injection Hs0 as <-.
  apply (ext_dict_frame _ _ X); [assumption|].
  intros Hin. apply elem_of_metadata_refs in Hin as (l' & s' & Hl' & Hs' & E).
  exact (wf_apart_metadata _ W l s l' s' Hl Hs Hl' Hs' (eq_sym E)).
Qed.

Lemma extends_keeps st st' : WF st -> extends st st' -> keeps_history st st'.
Proof.
  intros W X. destruct (ext_versions _ _ X) as (new & Ev & Hnew).
  assert (Hsplit : forall l, l ∈ snapshot_refs (self st') ->
            l ∈ snapshot_refs (self st)
            \/ exists v, v ∈ new /\ l ∈ DocumentVersion.content_snapshot v).
  { intros l Hl. apply elem_of_snapshot_refs in Hl as (v & Hv & Hl).
    rewrite Ev in Hv. apply elem_of_app in Hv as [Hv | Hv].
    - left. apply elem_of_snapshot_refs. eauto.
    - right. eauto. }
  split; [split|].
  - intros l Hl. now apply (ext_live _ _ X).
  - exact (ext_distinct _ _ X).
  - intros l Hl. destruct (Hsplit l Hl) as [Hold | (v & Hv & Hlv)].
    + destruct (extends_snapshot_read st st' l W X Hold) as [Ho _].
      pose proof (wf_snapshot _ W l Hold) as Hvalid.
      apply valid_ref_spec in Hvalid as (s & Hs & Hm).
      apply valid_ref_spec. exists s. split; [congruence|].
      pose proof (ext_dicts _ _ X). lia.
    + now apply (Hnew v l Hv Hlv).
  - intros l Hl Hlive. destruct (Hsplit l Hl) as [Hold | (v & Hv & Hlv)].
    + destruct (ext_live _ _ X l Hlive) as [[Hin | Hge] _].
      * exact (wf_apart _ W l Hold Hin).
      * pose proof (valid_ref_lt _ _ (wf_snapshot _ W l Hold)). lia.
    + now apply (Hnew v l Hv Hlv).
  - intros l s l' s' Hl Hs Hl' Hs'. destruct (Hsplit l Hl) as [Hold | (v & Hv & Hlv)].
    + destruct (extends_snapshot_read st st' l W X Hold) as [Ho _].
      rewrite Ho in Hs.
      pose proof (wf_snapshot _ W l Hold) as Hvalid.
      apply valid_ref_spec in Hvalid as (s0 & Hs0 & Hm).
      rewrite Hs in Hs0. injection Hs0 as <-.
      destruct (ext_live_metadata _ _ X l' s' Hl' Hs') as [Hin | Hge].
      * apply elem_of_metadata_refs in Hin as (l0 & s0 & Hl0 & Hs0 & E).
        rewrite <- E. exact (wf_apart_metadata _ W l s l0 s0 Hold Hs Hl0 Hs0).
      * lia.
    + destruct (Hnew v l Hv Hlv) as (_ & _ & _ & Hmeta).
      exact (proj2 (Hmeta s Hs) l' s' Hl' Hs').
  - exists new. split; [assumption|].
    intros v Hv. unfold DocumentVersion.read. f_equal.
    apply read_sections_ext. intros l Hl.
    apply (extends_snapshot_read st st' l W X).
    apply elem_of_snapshot_refs. eauto.
Qed.

End Frame.

(** ** Attribute writes on live sections *)

Section Retouch.

Import Document Session.

Lemma retouch_refl L h : retouch L h h.
Proof. repeat split. Qed.

Lemma retouch_trans L h1 h2 h3 : retouch L h1 h2 -> retouch L h2 h3 -> retouch L h1 h3.
Proof.
  intros (D1 & N1 & F1 & M1) (D2 & N2 & F2 & M2). repeat split.
  - congruence.
  - congruence.
  - intros l Hl. rewrite F2, F1; auto.
  - intros l. now rewrite M2, M1.
Qed.

Lemma retouch_update L h l (f : Section.t loc -> Section.t loc) :
  l ∈ L -> (forall s, Section.metadata (f s) = Section.metadata s) ->
  retouch L h (update_obj f l h).
Proof.
  intros Hl Hf. repeat split.
  - apply length_objs_update_obj.
  - intros l' Hl'. apply obj_update_obj_ne. intros ->. contradiction.
  - intros l'. rewrite obj_update_obj. destruct (decide (l = l')) as [<-|]; [|reflexivity].
    destruct (obj h l) as [s|]; [|reflexivity]. simpl. now rewrite Hf.
Qed.

Lemma retouch_lock_all L (ls : list loc) h :
  (forall l, l ∈ ls -> l ∈ L) -> retouch L h (lock_all ls h).
Proof.
  unfold lock_all. revert h. induction ls as [|l ls IH]; intros h H; simpl.
  - apply retouch_refl.
  - eapply retouch_trans.
    + apply (retouch_update L h l (Section.with_locked true)); [apply H; left | reflexivity].
    + apply IH. intros l' Hl'. apply H. now right.
Qed.

Lemma retouch_reorder_from L (ls : list loc) idx h :
  (forall l, l ∈ ls -> l ∈ L) -> retouch L h (reorder_from idx ls h).
Proof.
  revert idx h. induction ls as [|l ls IH]; intros idx h H; simpl.
  - apply retouch_refl.
  - eapply retouch_trans.
    + apply (retouch_update L h l (Section.with_order (Z.of_nat idx)));
        [apply H; left | reflexivity].
    + apply IH. intros l' Hl'. apply H. now right.
Qed.

Lemma retouch_valid_ref L h h' l :
  retouch L h h' -> valid_ref h l = true -> valid_ref h' l = true.
Proof.
  intros (D & _ & _ & M) Hv. apply valid_ref_spec in Hv as (s & Hs & Hm).
  apply valid_ref_spec. specialize (M l). rewrite Hs in M.
  destruct (obj h' l) as [s'|]; [|discriminate]. injection M as M.
  exists s'. split; [reflexivity|]. rewrite D. simpl in *. lia.
Qed.

(** Writes to live sections, with the list of sections kept or shortened,
    extend a well-formed state. *)
Lemma retouch_extends st h' d' :
  WF st ->
  retouch (sections (self st)) (heap st) h' ->
  (forall l, l ∈ sections d' -> l ∈ sections (self st)) ->
  NoDup (sections d') ->
  versions d' = versions (self st) ->
  extends st (mk_state h' d').
Proof.
  intros W R Hsub Hnd Hv. pose proof R as (D & N & F & M). split; simpl.
  - lia.
  - rewrite D. lia.
  - intros l _ Hl. now apply F.
  - intros m _ _. now rewrite D.
  - intros l Hl. split; [left; now apply Hsub|].
    eapply retouch_valid_ref; [exact R|]. apply (wf_live _ W). now apply Hsub.
  - intros l s' Hl Hs'. left. specialize (M l). rewrite Hs' in M.
    destruct (obj (heap st) l) as [s|] eqn:Hs; [|discriminate]. injection M as M.
    apply elem_of_metadata_refs. exists l, s. auto.
  - assumption.
  - exists []. split; [now rewrite app_nil_r|]. intros v l Hin. inversion Hin.
Qed.

Lemma extends_refl st : WF st -> extends st st.
Proof.
  intros W. destruct st as [h d].
  apply (retouch_extends (mk_state h d) h d W); auto using retouch_refl.
  exact (wf_distinct _ W).
Qed.

Lemma write_section_extends i f st :
  WF st -> (forall s, Section.metadata (f s) = Section.metadata s) ->
  extends st (write_section i f st).
Proof.
  intros W Hf. unfold write_section.
  destruct (sections (self st) !! i) as [l|] eqn:Hl; [|now apply extends_refl].
  apply retouch_extends; auto.
  - apply retouch_update; [|assumption]. apply list_elem_of_lookup. eauto.
  - exact (wf_distinct _ W).
Qed.

Lemma get_section_elem_of title st l :
  get_section title st = Some l ->
  l ∈ sections (self st) /\ has_title (heap st) title l = true.
Proof.
  unfold get_section. intros H. apply find_some in H as [H1 H2].
  split; [now apply list_elem_of_In | assumption].
Qed.

Lemma update_section_extends now title content ai st :
  WF st -> extends st (snd (update_section now title content ai st)).
Proof.
  intros W. unfold update_section.
  destruct (get_section title st) as [l|] eqn:Hg; [|now apply extends_refl].
  destruct (obj (heap st) l) as [s|]; [|now apply extends_refl].
  destruct (negb (Section.locked s)); [|now apply extends_refl].
  simpl. apply retouch_extends; auto.
  - apply retouch_update; [|reflexivity]. now apply get_section_elem_of in Hg.
  - exact (wf_distinct _ W).
Qed.

Lemma elem_of_filter_list {A} (f : A -> bool) (xs : list A) x :
  x ∈ List.filter f xs <-> x ∈ xs /\ f x = true.
Proof. rewrite !list_elem_of_In. apply filter_In. Qed.

Lemma NoDup_list_filter {A} (f : A -> bool) (xs : list A) :
  NoDup xs -> NoDup (List.filter f xs).
Proof.
  induction 1 as [|x xs Hx Hnd IH]; simpl; [constructor|].
  destruct (f x); [|assumption].
  constructor; [|assumption]. rewrite elem_of_filter_list. tauto.
Qed.

Lemma remove_section_extends title st : WF st -> extends st (remove_section title st).
Proof.
  intros W. unfold remove_section, _reorder_sections. simpl.
  apply retouch_extends; auto.
  - apply retouch_reorder_from. intros l Hl. now apply elem_of_filter_list in Hl.
  - simpl. intros l Hl. now apply elem_of_filter_list in Hl.
  - simpl. apply NoDup_list_filter. exact (wf_distinct _ W).
Qed.

End Retouch.

(** ** Allocation *)

Section Growth.

Import Document Session.

Lemma grows_refl h : grows h h.
Proof. exists [], []. now rewrite !app_nil_r. Qed.

Lemma grows_trans h1 h2 h3 : grows h1 h2 -> grows h2 h3 -> grows h1 h3.
Proof.
  intros (no1 & nd1 & O1 & D1) (no2 & nd2 & O2 & D2).
  exists (no1 ++ no2), (nd1 ++ nd2). rewrite O2, D2, O1, D1, !app_assoc. auto.
Qed.

Lemma grows_alloc_dict d h : grows h (alloc_dict d h).2.
Proof. exists [], [d]. simpl. now rewrite app_nil_r. Qed.

Lemma grows_alloc_section s h : grows h (alloc_section s h).2.
Proof. exists [s], []. simpl. now rewrite app_nil_r. Qed.

Lemma grows_length_objs h h' : grows h h' -> (length (objs h) <= length (objs h'))%nat.
Proof. intros (no & nd & -> & _). rewrite length_app. lia. Qed.

Lemma grows_length_dicts h h' : grows h h' -> (length (dicts h) <= length (dicts h'))%nat.
Proof. intros (no & nd & _ & ->). rewrite length_app. lia. Qed.

Lemma grows_obj h h' l : grows h h' -> (l < length (objs h))%nat -> obj h' l = obj h l.
Proof. intros (no & nd & E & _) Hl. unfold obj. rewrite E. now apply lookup_app_l. Qed.

Lemma grows_dict h h' m :
  grows h h' -> (m < length (dicts h))%nat -> dicts h' !! m = dicts h !! m.
Proof. intros (no & nd & _ & E) Hm. rewrite E. now apply lookup_app_l. Qed.

Lemma grows_valid_ref h h' l : grows h h' -> valid_ref h l = true -> valid_ref h' l = true.
Proof.
  intros G Hv. pose proof (valid_ref_lt _ _ Hv) as Hl.
  apply valid_ref_spec in Hv as (s & Hs & Hm). apply valid_ref_spec.
  exists s. split; [now rewrite (grows_obj h h' l G Hl)|].
  pose proof (grows_length_dicts _ _ G). lia.
Qed.

Lemma grows_read_section h h' l :
  grows h h' -> valid_ref h l = true -> read_section h' l = read_section h l.
Proof.
  intros G Hv. pose proof (valid_ref_lt _ _ Hv) as Hl.
  apply valid_ref_spec in Hv as (s & Hs & Hm).
  apply read_section_ext; [now apply grows_obj|].
  intros s0 Hs0. rewrite Hs in Hs0. injection Hs0 as <-. now apply grows_dict.
Qed.

Lemma grows_read_sections h h' (ls : list loc) :
  grows h h' -> (forall l, l ∈ ls -> valid_ref h l = true) ->
  read_sections h' ls = read_sections h ls.
Proof.
  intros G Hv. apply read_sections_ext. intros l Hl. apply grows_read_section; auto.
Qed.

(** The copy of a valid section: a new object with a new dictionary,
    reading as the original does. *)
Lemma copy_section_spec l h :
  valid_ref h l = true ->
  exists s,
    obj h l = Some s
    /\ copy_section l h
       = (Some (length (objs h)),
          mk_store (objs h ++ [Section.with_metadata (length (dicts h)) s])
                   (dicts h ++ [dict_at h (Section.metadata s)])).
Proof.
  intros Hv. apply valid_ref_spec in Hv as (s & Hs & _). exists s.
  split; [assumption|]. unfold copy_section. now rewrite Hs.
Qed.

Lemma copy_sections_spec (ls : list loc) h :
  (forall l, l ∈ ls -> valid_ref h l = true) ->
  grows h (copy_sections ls h).2
  /\ (forall l', l' ∈ (copy_sections ls h).1 ->
        (length (objs h) <= l')%nat
        /\ exists s', obj (copy_sections ls h).2 l' = Some s'
                      /\ (length (dicts h) <= Section.metadata s')%nat
                      /\ (Section.metadata s' < length (dicts (copy_sections ls h).2))%nat)
  /\ read_sections (copy_sections ls h).2 (copy_sections ls h).1 = read_sections h ls.
Proof.
  revert h. induction ls as [|l r IH]; intros h Hv.
  - simpl. split; [apply grows_refl|]. split; [|reflexivity].
    intros l' Hl'. inversion Hl'.
  - destruct (copy_section_spec l h) as (s & Hs & Hc); [apply Hv; left|].
    set (h1 := mk_store (objs h ++ [Section.with_metadata (length (dicts h)) s])
                        (dicts h ++ [dict_at h (Section.metadata s)])) in *.
    assert (G1 : grows h h1) by (eexists _, _; split; reflexivity).
    assert (Hv1 : forall l0, l0 ∈ r -> valid_ref h1 l0 = true).
    { intros l0 Hl0. apply (grows_valid_ref h h1); [assumption|]. apply Hv. now right. }
    specialize (IH h1 Hv1). simpl copy_sections. rewrite Hc.
    destruct (copy_sections r h1) as [rest h2] eqn:Hr. simpl in IH |- *.
    destruct IH as (G2 & Hnew & Hread).
    assert (Hl1 : obj h2 (length (objs h)) = Some (Section.with_metadata (length (dicts h)) s)).
    { rewrite (grows_obj h1 h2 _ G2).
      - unfold obj, h1; simpl. now apply list_lookup_middle.
      - unfold h1; simpl. rewrite length_app; simpl. lia. }
    assert (Hd1 : dict_at h2 (length (dicts h)) = dict_at h (Section.metadata s)).
    { unfold dict_at at 1. rewrite (grows_dict h1 h2 _ G2).
      - unfold h1; simpl. now rewrite list_lookup_middle.
      - unfold h1; simpl. rewrite length_app; simpl. lia. }
    split; [now apply (grows_trans h h1 h2)|]. split.
    + intros l' Hl'. apply elem_of_cons in Hl' as [-> | Hl'].
      * split; [lia|]. eexists. split; [exact Hl1|]. simpl.
        pose proof (grows_length_dicts _ _ G2) as Hlen.
        unfold h1 in Hlen; simpl in Hlen. rewrite length_app in Hlen; simpl in Hlen.
        split; lia.
      * destruct (Hnew l' Hl') as (Hge & s' & Hs' & Hm1 & Hm2).
        unfold h1 in Hge, Hm1; simpl in Hge, Hm1.
        rewrite length_app in Hge, Hm1; simpl in Hge, Hm1.
        split; [lia|]. exists s'. repeat split; [assumption | lia | assumption].
    + unfold read_section at 1. rewrite Hl1.
      cbn [mbind option_bind]. simpl Section.metadata. rewrite Hd1.
      unfold read_section at 1. rewrite Hs. cbn [mbind option_bind].
      rewrite Hread. f_equal.
      apply grows_read_sections; [assumption|]. intros l0 Hl0. apply Hv. now right.
Qed.

End Growth.

(** ** The methods that allocate *)

Section Allocating.

Import Document Session.

Lemma insert_sorted_perm key x (ls : list loc) : insert_sorted key x ls ≡ₚ x :: ls.
Proof.
  induction ls as [|y r IH]; simpl; [reflexivity|].
  destruct (key x <=? key y); [reflexivity|].
  rewrite IH. apply Permutation_swap.
Qed.

Lemma sort_by_perm key (ls : list loc) : sort_by key ls ≡ₚ ls.
Proof.
  induction ls as [|x r IH]; simpl; [reflexivity|].
  now rewrite insert_sorted_perm, IH.
Qed.

Lemma live_lt st l : WF st -> l ∈ sections (self st) -> (l < length (objs (heap st)))%nat.
Proof. intros W Hl. apply valid_ref_lt. now apply (wf_live _ W). Qed.

Lemma live_metadata_lt st l s :
  WF st -> l ∈ sections (self st) -> obj (heap st) l = Some s ->
  (Section.metadata s < length (dicts (heap st)))%nat.
Proof.
  intros W Hl Hs. pose proof (wf_live _ W l Hl) as Hv.
  apply valid_ref_spec in Hv as (s0 & Hs0 & Hm). congruence.
Qed.

(** Allocations that leave the list of sections and the versions alone. *)
Lemma grows_extends st h' d' :
  WF st -> grows (heap st) h' ->
  sections d' = sections (self st) ->
  versions d' = versions (self st) ->
  extends st (mk_state h' d').
Proof.
  intros W G Es Ev. split; simpl.
  - now apply grows_length_objs.
  - now apply grows_length_dicts.
  - intros l Hl _. now apply grows_obj.
  - intros m Hm _. now apply grows_dict.
  - rewrite Es. intros l Hl. split; [now left|].
    apply (grows_valid_ref (heap st)); [assumption | now apply (wf_live _ W)].
  - rewrite Es. intros l s' Hl Hs'. left.
    rewrite (grows_obj (heap st) h' l G (live_lt st l W Hl)) in Hs'.
    apply elem_of_metadata_refs. eauto.
  - rewrite Es. exact (wf_distinct _ W).
  - exists []. split; [now rewrite Ev, app_nil_r|]. intros v l Hin. inversion Hin.
Qed.

Lemma log_version_extends t_stamp t_modified user role changes st :
  WF st -> extends st (log_version t_stamp t_modified user role changes st).
Proof.
  intros W. unfold log_version.
  destruct (copy_sections_spec (sections (self st)) (heap st) (wf_live _ W))
    as (G & Hnew & _).
  destruct (copy_sections (sections (self st)) (heap st)) as [snapshot h'].
  simpl in G, Hnew. split; simpl.
  - now apply grows_length_objs.
  - now apply grows_length_dicts.
  - intros l Hl _. now apply grows_obj.
  - intros m Hm _. now apply grows_dict.
  - intros l Hl. split; [now left|].
    apply (grows_valid_ref (heap st)); [assumption | now apply (wf_live _ W)].
  - intros l s' Hl Hs'. left.
    rewrite (grows_obj (heap st) h' l G (live_lt st l W Hl)) in Hs'.
    apply elem_of_metadata_refs. eauto.
  - exact (wf_distinct _ W).
  - eexists. split; [reflexivity|].
    intros v l Hv Hl. apply list_elem_of_singleton in Hv. subst v. simpl in Hl.
    destruct (Hnew l Hl) as (Hge & s' & Hs' & Hm1 & Hm2).
    split; [assumption|]. split.
    { intros Hlive. pose proof (live_lt st l W Hlive). lia. }
    split.
    { apply valid_ref_spec. eauto. }
    intros s Hs. rewrite Hs' in Hs. injection Hs as <-.
    split; [assumption|].
    intros l0 s0 Hl0 Hs0 E.
    rewrite (grows_obj (heap st) h' l0 G (live_lt st l0 W Hl0)) in Hs0.
    pose proof (live_metadata_lt st l0 s0 W Hl0 Hs0). lia.
Qed.

Lemma add_section_extends title content content_type order st :
  WF st -> extends st (add_section title content content_type order st).
Proof.
  intros W. unfold add_section. simpl.
  set (o := match order with Some o => o | None => Z.of_nat (length (sections (self st))) end).
  set (sec := Section.mk title content content_type false false o (length (dicts (heap st)))).
  set (h2 := mk_store (objs (heap st) ++ [sec]) (dicts (heap st) ++ [[]])).
  assert (G : grows (heap st) h2) by (eexists _, _; split; reflexivity).
  assert (Hnew : obj h2 (length (objs (heap st))) = Some sec)
    by (unfold obj, h2; simpl; now apply list_lookup_middle).
  assert (Hin : forall l, l ∈ sort_by (order_of h2) (sections (self st) ++ [length (objs (heap st))])
                  -> l ∈ sections (self st) \/ l = length (objs (heap st))).
  { intros l Hl. rewrite sort_by_perm in Hl. apply elem_of_app in Hl as [Hl | Hl]; [now left|].
    right. now apply list_elem_of_singleton in Hl. }
  split; simpl.
  - exact (grows_length_objs _ h2 G).
  - exact (grows_length_dicts _ h2 G).
  - intros l Hl _. now apply (grows_obj _ h2).
  - intros m Hm _. now apply (grows_dict _ h2).
  - intros l Hl. destruct (Hin l Hl) as [Hold | ->].
    + split; [now left|].
      apply (grows_valid_ref (heap st)); [assumption | now apply (wf_live _ W)].
    + split; [right; lia|]. apply valid_ref_spec. exists sec. split; [assumption|].
      unfold h2; simpl. rewrite length_app; simpl. lia.
  - intros l s' Hl Hs'. destruct (Hin l Hl) as [Hold | ->].
    + left. rewrite (grows_obj (heap st) h2 l G (live_lt st l W Hold)) in Hs'.
      apply elem_of_metadata_refs. eauto.
    + right. rewrite Hnew in Hs'. injection Hs' as <-. simpl. lia.
  - rewrite sort_by_perm. apply NoDup_app. split; [exact (wf_distinct _ W)|].
    split; [|apply NoDup_singleton].
    intros l Hl Hl'. apply list_elem_of_singleton in Hl'. subst l.
    pose proof (live_lt st _ W Hl). lia.
  - exists []. split; [now rewrite app_nil_r|]. intros v l Hv. inversion Hv.
Qed.

Lemma write_metadata_item_extends i key v st :
  WF st -> extends st (write_metadata_item i key v st).
Proof.
  intros W. unfold write_metadata_item.
  destruct (sections (self st) !! i ≫= obj (heap st)) as [s|] eqn:E;
    [|now apply extends_refl].
  destruct (sections (self st) !! i) as [l|] eqn:Hl; [|discriminate]. simpl in E.
  assert (Hlive : l ∈ sections (self st)) by (apply list_elem_of_lookup; eauto).
  split; simpl.
  - lia.
  - rewrite length_alter. lia.
  - reflexivity.
  - intros m Hm Hnot. apply list_lookup_alter_ne. intros <-. apply Hnot.
    apply elem_of_metadata_refs. eauto.
  - intros l' Hl'. split; [now left|].
    pose proof (wf_live _ W l' Hl') as Hv. unfold valid_ref in *.
    unfold obj in *; simpl. now rewrite length_alter.
  - intros l' s' Hl' Hs'. left. apply elem_of_metadata_refs. eauto.
  - exact (wf_distinct _ W).
  - exists []. split; [now rewrite app_nil_r|]. intros v0 l0 Hv. inversion Hv.
Qed.

Lemma write_metadata_extends i d st : WF st -> extends st (write_metadata i d st).
Proof.
  intros W. unfold write_metadata.
  destruct (sections (self st) !! i) as [l|] eqn:Hl; [|now apply extends_refl].
  assert (Hlive : l ∈ sections (self st)) by (apply list_elem_of_lookup; eauto).
  simpl.
  set (h1 := mk_store (objs (heap st)) (dicts (heap st) ++ [d])).
  set (f := Section.with_metadata (M := loc) (length (dicts (heap st)))).
  split; simpl.
  - rewrite length_alter. lia.
  - rewrite length_app. lia.
  - intros l' _ Hl'. rewrite obj_update_obj_ne; [reflexivity|]. intros <-. contradiction.
  - intros m Hm _. now apply lookup_app_l.
  - intros l' Hl'. split; [now left|].
    pose proof (wf_live _ W l' Hl') as Hv.
    apply valid_ref_spec in Hv as (s & Hs & Hm). apply valid_ref_spec.
    rewrite obj_update_obj. simpl. rewrite length_app. simpl.
    destruct (decide (l = l')) as [<-|].
    + change (obj h1 l) with (obj (heap st) l). rewrite Hs. simpl.
      eexists. split; [reflexivity|]. simpl. lia.
    + change (obj h1 l') with (obj (heap st) l'). exists s. split; [assumption | lia].
  - intros l' s' Hl' Hs'. rewrite obj_update_obj in Hs'.
    destruct (decide (l = l')) as [<-|].
    + change (obj h1 l) with (obj (heap st) l) in Hs'.
      destruct (obj (heap st) l) as [s|]; [|discriminate].
      injection Hs' as <-. right. simpl. lia.
    + change (obj h1 l') with (obj (heap st) l') in Hs'. left.
      apply elem_of_metadata_refs. eauto.
  - exact (wf_distinct _ W).
  - exists []. split; [now rewrite app_nil_r|]. intros v0 l0 Hv. inversion Hv.
Qed.

End Allocating.

(** ** Histories keep the stored versions *)

Section Histories.

Import Document Session.

Lemma keeps_history_refl st : WF st -> keeps_history st st.
Proof. intros W. apply extends_keeps; [assumption | now apply extends_refl]. Qed.

Lemma approve_keeps t_stamp t_modified user st :
  WF st -> keeps_history st (approve t_stamp t_modified user st).
Proof.
  intros W. unfold approve.
  set (mid := mk_state (lock_all (sections (with_approver (Some user)
                                              (with_approved true (self st)))) (heap st))
                       (with_approver (Some user) (with_approved true (self st)))).
  assert (K : keeps_history st mid).
  { apply extends_keeps; [assumption|]. apply retouch_extends; auto.
    - now apply retouch_lock_all.
    - exact (wf_distinct _ W). }
  eapply keeps_history_trans; [exact K|].
  apply extends_keeps; [exact (proj1 K)|].
  apply log_version_extends. exact (proj1 K).
Qed.

Lemma step_keeps a st : WF st -> keeps_history st (step a st).
Proof.
  intros W. destruct a; simpl.
  - apply extends_keeps; [assumption | now apply add_section_extends].
  - apply extends_keeps; [assumption | now apply remove_section_extends].
  - apply extends_keeps; [assumption | now apply update_section_extends].
  - apply extends_keeps; [assumption | now apply log_version_extends].
  - now apply approve_keeps.
  - apply extends_keeps; [assumption | now apply write_section_extends].
  - apply extends_keeps; [assumption | now apply write_section_extends].
  - apply extends_keeps; [assumption | now apply write_section_extends].
  - apply extends_keeps; [assumption | now apply write_section_extends].
  - apply extends_keeps; [assumption | now apply write_section_extends].
  - apply extends_keeps; [assumption | now apply write_section_extends].
  - apply extends_keeps; [assumption | now apply write_metadata_item_extends].
  - apply extends_keeps; [assumption | now apply write_metadata_extends].
Qed.

Lemma run_cons a acts st : run (a :: acts) st = run acts (step a st).
Proof. reflexivity. Qed.

Lemma run_app acts1 acts2 st : run (acts1 ++ acts2) st = run acts2 (run acts1 st).
Proof. unfold run. apply fold_left_app. Qed.

Lemma run_keeps acts st : WF st -> keeps_history st (run acts st).
Proof.
  revert st. induction acts as [|a acts IH]; intros st W.
  - now apply keeps_history_refl.
  - rewrite run_cons. pose proof (step_keeps a st W) as K.
    eapply keeps_history_trans; [exact K|]. apply IH. exact (proj1 K).
Qed.

Lemma run_wf acts st : wf st = true -> wf (run acts st) = true.
Proof. rewrite !wf_spec. intros W. exact (proj1 (run_keeps acts st W)). Qed.

(** What a step adds to the version log: nothing, or one version numbered
    after the count of those present. *)
Lemma log_version_versions t_stamp t_modified user role changes st :
  exists v,
    versions (self (log_version t_stamp t_modified user role changes st))
    = versions (self st) ++ [v]
    /\ DocumentVersion.version_id v = Z.of_nat (length (versions (self st))) + 1
    /\ DocumentVersion.timestamp v = t_stamp
    /\ DocumentVersion.user v = user
    /\ DocumentVersion.role v = role
    /\ DocumentVersion.changes v = changes
    /\ DocumentVersion.content_snapshot v
       = (copy_sections (sections (self st)) (heap st)).1.
Proof.
  unfold log_version.
  destruct (copy_sections (sections (self st)) (heap st)) as [snapshot h'].
  eexists. repeat split.
Qed.

Lemma versions_update_section now title content ai st :
  versions (self (snd (update_section now title content ai st))) = versions (self st).
Proof.
  unfold update_section.
  destruct (get_section title st) as [l|]; [|reflexivity].
  destruct (obj (heap st) l) as [s|]; [|reflexivity].
  now destruct (negb (Section.locked s)).
Qed.

Lemma versions_write_section i f st :
  versions (self (write_section i f st)) = versions (self st).
Proof. unfold write_section. now destruct (sections (self st) !! i). Qed.

Lemma versions_write_metadata_item i key v st :
  versions (self (write_metadata_item i key v st)) = versions (self st).
Proof.
  unfold write_metadata_item.
  now destruct (sections (self st) !! i ≫= obj (heap st)).
Qed.

Lemma versions_write_metadata i d st :
  versions (self (write_metadata i d st)) = versions (self st).
Proof. unfold write_metadata. now destruct (sections (self st) !! i). Qed.

Lemma step_versions a st :
  versions (self (step a st)) = versions (self st)
  \/ exists v, versions (self (step a st)) = versions (self st) ++ [v]
               /\ DocumentVersion.version_id v
                  = Z.of_nat (length (versions (self st))) + 1.
Proof.
  destruct a; cbn [step].
  - left. reflexivity.
  - left. reflexivity.
  - left. apply versions_update_section.
  - right. destruct (log_version_versions t_stamp t_modified user role changes st)
      as (v & E & Hid & _). eauto.
  - right. unfold approve.
    match goal with |- context [log_version _ _ _ _ _ ?mid] =>
      destruct (log_version_versions t_stamp t_modified user "approver"
                  "Document approved" mid) as (v & E & Hid & _)
    end.
    exists v. split; [exact E | exact Hid].
  - left. apply versions_write_section.
  - left. apply versions_write_section.
  - left. apply versions_write_section.
  - left. apply versions_write_section.
  - left. apply versions_write_section.
  - left. apply versions_write_section.
  - left. apply versions_write_metadata_item.
  - left. apply versions_write_metadata.
Qed.

Lemma run_versions_prefix acts st :
  exists later, versions (self (run acts st)) = versions (self st) ++ later.
Proof.
  revert st. induction acts as [|a acts IH]; intros st.
  - exists []. simpl. now rewrite app_nil_r.
  - rewrite run_cons. destruct (IH (step a st)) as (later & E).
    destruct (step_versions a st) as [E' | (v & E' & _)]; rewrite E' in E.
    + eauto.
    + exists ([v] ++ later). now rewrite app_assoc.
Qed.

(** The versions a history adds are numbered by their position. *)
Lemma run_numbering acts st i w :
  versions (self (run acts st)) !! i = Some w ->
  (length (versions (self st)) <= i)%nat ->
  DocumentVersion.version_id w = Z.of_nat i + 1.
Proof.
  revert st. induction acts as [|a acts IH]; intros st Hw Hi.
  - simpl in Hw. apply lookup_lt_Some in Hw. lia.
  - rewrite run_cons in Hw.
    destruct (step_versions a st) as [E | (v & E & Hid)].
    + apply (IH (step a st)); [assumption | now rewrite E].
    + destruct (decide (i = length (versions (self st)))) as [-> | Hne].
      * destruct (run_versions_prefix acts (step a st)) as (later & El).
        rewrite El, E in Hw. rewrite <- app_assoc in Hw.
        change ([v] ++ later) with (v :: later) in Hw.
        rewrite list_lookup_middle in Hw by reflexivity.
        injection Hw as <-. exact Hid.
      * apply (IH (step a st)); [assumption|].
        rewrite E, length_app. simpl. lia.
Qed.

End Histories.

(** ** The version log *)

Section VersionLog.

Import Document Session.

Lemma heap_log_version t_stamp t_modified user role changes st :
  heap (log_version t_stamp t_modified user role changes st)
  = (copy_sections (sections (self st)) (heap st)).2.
Proof.
  unfold log_version.
  now destruct (copy_sections (sections (self st)) (heap st)).
Qed.

Lemma firstn_map_app {A B} (f : A -> B) (xs ys : list A) :
  firstn (length xs) (List.map f (xs ++ ys)) = List.map f xs.
Proof.
  rewrite List.map_app, firstn_app, length_map, Nat.sub_diag. simpl.
  rewrite app_nil_r. rewrite <- (length_map f xs). apply firstn_all.
Qed.

(** C4.  [log_version] appends one version whose [version_id] is the
    count of the versions present plus one and whose snapshot has the value
    of the current sections.  Whatever is done to the live document
    afterwards (method calls, and attribute writes on its sections:
    content, lock bit, order, metadata items, ...), every stored version
    keeps its value, and every version from this one on is numbered by its
    position in the log, so no number is used twice.  In a document that
    starts with an empty log the N-th version logged therefore has
    [version_id = N]. *)
Theorem log_version_snapshot_is_independent
  (st : state) (t_stamp t_modified : datetime) (user role changes : string) :
  wf st = true ->
  let st1 := log_version t_stamp t_modified user role changes st in
  exists v,
    versions (self st1) = versions (self st) ++ [v]
    /\ DocumentVersion.version_id v = Z.of_nat (length (versions (self st))) + 1
    /\ DocumentVersion.content_snapshot (DocumentVersion.read (heap st1) v)
       = sections (read st)
    /\ forall acts,
         let st2 := run acts st1 in
         firstn (length (versions (self st1))) (versions (read st2))
         = versions (read st1)
         /\ forall i w,
              versions (self st2) !! i = Some w ->
              (length (versions (self st)) <= i)%nat ->
              DocumentVersion.version_id w = Z.of_nat i + 1.
Proof.
  rewrite wf_spec. intros W st1.
  destruct (log_version_versions t_stamp t_modified user role changes st)
    as (v & E & Hid & _ & _ & _ & _ & Hsnap).
  exists v. split; [exact E|]. split; [exact Hid|]. split.
  - simpl. unfold st1. rewrite heap_log_version, Hsnap.
    apply copy_sections_spec. exact (wf_live _ W).
  - intros acts st2.
    assert (W1 : WF st1).
    { apply (extends_keeps st st1 W). now apply log_version_extends. }
    destruct (run_keeps acts st1 W1) as (_ & later & E2 & R). fold st2 in E2, R.
    split.
    + unfold read at 1 2. cbn [versions]. rewrite E2, firstn_map_app.
      apply map_ext_in. intros w Hw. apply R. now apply list_elem_of_In.
    + intros i w Hw Hi.
      apply (run_numbering (LogVersion t_stamp t_modified user role changes :: acts) st i w);
        assumption.
Qed.

End VersionLog.

Lemma log_version_snapshot_is_independent_witness :
  Session.wf Examples.thermal = true
  /\ exists v,
       Document.versions
         (Document.self (Document.log_version Examples.t_a Examples.t_b
                           "author" "doer" "first draft" Examples.thermal))
       = [v]
       /\ DocumentVersion.version_id v = 1.
Proof.
  split; [reflexivity|].
  destruct (log_version_snapshot_is_independent Examples.thermal Examples.t_a Examples.t_b
              "author" "doer" "first draft" eq_refl) as (v & E & Hid & _).
  exists v. split; [exact E | exact Hid].
Defined.

(** ** update_section *)

Section UpdateSection.

Import Document Session.

Lemma has_title_spec h title l :
  has_title h title l = true <-> exists s, obj h l = Some s /\ Section.title s = title.
Proof.
  unfold has_title. destruct (obj h l) as [s|].
  - rewrite String.eqb_eq. split; [eauto|]. now intros (s' & [= <-] & E).
  - split; [discriminate|]. now intros (s' & [=] & _).
Qed.

Lemma find_first {A} (f : A -> bool) (before after : list A) (x : A) :
  (forall y, y ∈ before -> f y = false) -> f x = true ->
  List.find f (before ++ x :: after) = Some x.
Proof.
  intros Hb Hx. induction before as [|y before IH]; simpl.
  - now rewrite Hx.
  - rewrite (Hb y) by left. apply IH. intros z Hz. apply Hb. now right.
Qed.

Lemma find_absent {A} (f : A -> bool) (xs : list A) :
  (forall y, y ∈ xs -> f y = false) -> List.find f xs = None.
Proof.
  intros H. induction xs as [|y xs IH]; simpl; [reflexivity|].
  rewrite (H y) by left. apply IH. intros z Hz. apply H. now right.
Qed.

Lemma get_section_first st title l :
  first_titled st title l -> get_section title st = Some l.
Proof. intros (before & after & E & Hb & Hl). unfold get_section. rewrite E. now apply find_first. Qed.

(** C3.  [update_section] always returns a boolean.  When no section has
    the title, or the first section with the title is locked, it returns
    [False] and the state is unchanged.  Otherwise it returns [True]; the
    first section with the title has the new [content] and [ai_generated]
    and is otherwise as before, no other object and no dictionary changes,
    and the document changes in [last_modified] only, which is the reading
    of the clock. *)
Theorem update_section_spec
  (now : datetime) (title content : string) (ai_generated : bool) (st : state) :
  ((forall l, l ∈ sections (self st) -> has_title (heap st) title l = false) ->
   update_section now title content ai_generated st = (false, st))
  /\ (forall l s,
        first_titled st title l -> obj (heap st) l = Some s -> Section.locked s = true ->
        update_section now title content ai_generated st = (false, st))
  /\ (forall l s,
        first_titled st title l -> obj (heap st) l = Some s -> Section.locked s = false ->
        exists st',
          update_section now title content ai_generated st = (true, st')
          /\ obj (heap st') l
             = Some (Section.mk (Section.title s) content (Section.content_type s)
                       ai_generated (Section.locked s) (Section.order s)
                       (Section.metadata s))
          /\ (forall l', l' <> l -> obj (heap st') l' = obj (heap st) l')
          /\ dicts (heap st') = dicts (heap st)
          /\ self st' = with_last_modified now (self st)
          /\ last_modified (self st') = now).
Proof.
  split; [|split].
  - intros Habs. unfold update_section, get_section. now rewrite find_absent.
  - intros l s Hf Hs Hl. unfold update_section.
    rewrite (get_section_first st title l Hf), Hs, Hl. reflexivity.
  - intros l s Hf Hs Hl. unfold update_section.
    rewrite (get_section_first st title l Hf), Hs, Hl. simpl.
    eexists. split; [reflexivity|]. simpl. split; [|split; [|auto]].
    + rewrite (obj_update_obj_eq _ l (heap st) s Hs).
      unfold Section.with_ai_generated, Section.with_content. simpl. now rewrite Hl.
    + intros l' Hne. apply obj_update_obj_ne. congruence.
Qed.

End UpdateSection.

(** ** approve *)

Section Approve.

Import Document Session.

Lemma obj_lock_all (ls : list loc) h l :
  obj (lock_all ls h) l
  = if decide (l ∈ ls) then Section.with_locked true <$> obj h l else obj h l.
Proof.
  unfold lock_all. revert h. induction ls as [|l0 ls IH]; intros h; simpl.
  - destruct (decide (l ∈ [])) as [H|]; [inversion H | reflexivity].
  - rewrite IH, obj_update_obj.
    destruct (decide (l0 = l)) as [E|Hne].
    + subst l0. destruct (decide (l ∈ l :: ls)) as [_|N]; [|exfalso; apply N; left].
      destruct (decide (l ∈ ls)); now destruct (obj h l).
    + destruct (decide (l ∈ ls)) as [Hin|Hnin];
        destruct (decide (l ∈ l0 :: ls)) as [Hin'|Hnin']; try reflexivity.
      * exfalso. apply Hnin'. now right.
      * exfalso. apply elem_of_cons in Hin' as [->|]; contradiction.
Qed.

Lemma dicts_lock_all (ls : list loc) h : dicts (lock_all ls h) = dicts h.
Proof.
  unfold lock_all. revert h. induction ls as [|l0 ls IH]; intros h; simpl; [reflexivity|].
  now rewrite IH.
Qed.

Lemma read_section_lock_all (ls : list loc) h l :
  l ∈ ls ->
  read_section (lock_all ls h) l = Section.with_locked true <$> read_section h l.
Proof.
  intros Hl. unfold read_section, dict_at. rewrite obj_lock_all, dicts_lock_all.
  destruct (decide (l ∈ ls)); [|contradiction].
  now destruct (obj h l).
Qed.

Lemma read_sections_lock_all (ls : list loc) h :
  read_sections (lock_all ls h) ls
  = List.map (Section.with_locked true) (read_sections h ls).
Proof.
  unfold read_sections.
  change (List.map (Section.with_locked (M := dict) true))
    with (fmap (M := list) (Section.with_locked (M := dict) true)).
  rewrite list_fmap_omap. apply list_omap_ext, Forall_Forall2_diag, Forall_forall.
  intros l Hl. now apply read_section_lock_all.
Qed.

Lemma sections_log_version t_stamp t_modified user role changes st :
  sections (self (log_version t_stamp t_modified user role changes st))
  = sections (self st).
Proof.
  unfold log_version. now destruct (copy_sections (sections (self st)) (heap st)).
Qed.

Lemma approved_log_version t_stamp t_modified user role changes st :
  approved (self (log_version t_stamp t_modified user role changes st))
  = approved (self st)
  /\ approver (self (log_version t_stamp t_modified user role changes st))
     = approver (self st).
Proof.
  unfold log_version. now destruct (copy_sections (sections (self st)) (heap st)).
Qed.

(** Logging does not change the value of the live sections. *)
Lemma read_sections_log_version t_stamp t_modified user role changes st :
  WF st ->
  sections (read (log_version t_stamp t_modified user role changes st))
  = sections (read st).
Proof.
  intros W. unfold read. cbn [sections].
  rewrite sections_log_version, heap_log_version.
  apply grows_read_sections.
  - apply copy_sections_spec. exact (wf_live _ W).
  - exact (wf_live _ W).
Qed.

Lemma approve_unfold t_stamp t_modified user st :
  approve t_stamp t_modified user st
  = log_version t_stamp t_modified user "approver" "Document approved"
      (approve_locked user st).
Proof. reflexivity. Qed.

Lemma approve_locked_wf user st : WF st -> WF (approve_locked user st).
Proof.
  intros W. apply (extends_keeps st _ W). apply retouch_extends; auto.
  - now apply retouch_lock_all.
  - exact (wf_distinct _ W).
Qed.

Lemma read_sections_approve t_stamp t_modified user st :
  WF st ->
  sections (read (approve t_stamp t_modified user st))
  = List.map (Section.with_locked true) (sections (read st)).
Proof.
  intros W. rewrite approve_unfold.
  rewrite read_sections_log_version by now apply approve_locked_wf.
  apply read_sections_lock_all.
Qed.

(** C5.  [approve(user)] sets [approved] and [approver], leaves the list
    of sections as it is with every section locked and otherwise
    unchanged, and appends exactly one version, whose [changes] is
    ["Document approved"] and whose [role] is ["approver"]. *)
Theorem approve_spec (t_stamp t_modified : datetime) (user : string) (st : state) :
  wf st = true ->
  let st' := approve t_stamp t_modified user st in
  approved (self st') = true
  /\ approver (self st') = Some user
  /\ sections (read st') = List.map (Section.with_locked true) (sections (read st))
  /\ forallb Section.locked (sections (read st')) = true
  /\ exists v,
       versions (self st') = versions (self st) ++ [v]
       /\ DocumentVersion.changes v = "Document approved"
       /\ DocumentVersion.role v = "approver"
       /\ DocumentVersion.user v = user.
Proof.
  rewrite wf_spec. intros W st'.
  destruct (log_version_versions t_stamp t_modified user "approver"
              "Document approved" (approve_locked user st))
    as (v & E & _ & _ & Hu & Hr & Hc & _).
  destruct (approved_log_version t_stamp t_modified user "approver"
              "Document approved" (approve_locked user st)) as (Ha & Hb).
  pose proof (read_sections_approve t_stamp t_modified user st W) as Hsec.
  repeat split.
  - exact Ha.
  - exact Hb.
  - exact Hsec.
  - unfold st'. rewrite Hsec. apply forallb_forall. intros s Hs.
    apply in_map_iff in Hs as (s0 & <- & _). reflexivity.
  - exists v. auto.
Qed.

End Approve.

Lemma approve_spec_witness :
  Session.wf Examples.thermal = true
  /\ Document.approved
       (Document.self (Document.approve Examples.t_a Examples.t_b "qa" Examples.thermal))
     = true
  /\ forallb Section.locked
       (Document.sections
          (Document.read (Document.approve Examples.t_a Examples.t_b "qa" Examples.thermal)))
     = true.
Proof.
  split; [reflexivity|].
  destruct (approve_spec Examples.t_a Examples.t_b "qa" Examples.thermal eq_refl)
    as (Ha & _ & _ & Hl & _).
  split; [exact Ha | exact Hl].
Defined.

(** ** The invariant of approval *)

Section ApprovalInvariant.

Import Document Session.

Lemma read_section_Some h l x :
  read_section h l = Some x <->
  exists s, obj h l = Some s
            /\ x = Section.with_metadata (dict_at h (Section.metadata s)) s.
Proof.
  unfold read_section. destruct (obj h l) as [s|]; cbn [mbind option_bind].
  - split; [intros [= <-]; eauto|]. now intros (s' & [= <-] & ->).
  - split; [discriminate|]. now intros (s' & [=] & _).
Qed.

Lemma all_locked_spec st :
  all_locked st = true <->
  forall l s, l ∈ sections (self st) -> obj (heap st) l = Some s ->
              Section.locked s = true.
Proof.
  unfold all_locked, read. cbn [sections]. rewrite forallb_elem_of. split.
  - intros H l s Hl Hs. apply (H (Section.with_metadata (dict_at (heap st) (Section.metadata s)) s)).
    unfold read_sections. apply list_elem_of_omap. exists l. split; [assumption|].
    apply read_section_Some. eauto.
  - intros H x Hx. unfold read_sections in Hx.
    apply list_elem_of_omap in Hx as (l & Hl & Hx).
    apply read_section_Some in Hx as (s & Hs & ->). simpl. eauto.
Qed.

(** With every section locked, [update_section] fails and leaves the
    state as it is. *)
Lemma update_section_all_locked now title content ai st :
  all_locked st = true -> update_section now title content ai st = (false, st).
Proof.
  rewrite all_locked_spec. intros H. unfold update_section.
  destruct (get_section title st) as [l|] eqn:Hg; [|reflexivity].
  destruct (obj (heap st) l) as [s|] eqn:Hs; [|reflexivity].
  apply get_section_elem_of in Hg as [Hl _]. now rewrite (H l s Hl Hs).
Qed.

Lemma locked_reorder_from (ls : list loc) idx h l :
  Section.locked <$> obj (reorder_from idx ls h) l = Section.locked <$> obj h l.
Proof.
  revert idx h. induction ls as [|l0 ls IH]; intros idx h; simpl; [reflexivity|].
  rewrite IH, obj_update_obj. destruct (decide (l0 = l)) as [->|]; [|reflexivity].
  now destruct (obj h l).
Qed.

Lemma same_locks_invariant st st' :
  same_locks st st' -> approval_invariant st = true -> approval_invariant st' = true.
Proof.
  intros (Ha & Hl) Hinv. unfold approval_invariant in *. rewrite Ha.
  destruct (approved (self st)); [|reflexivity]. simpl in *.
  rewrite all_locked_spec in *. intros l s' Hin Hs'.
  destruct (Hl l s' Hin Hs') as (s & Hin0 & Hs & ->). eauto.
Qed.

Lemma remove_section_same_locks title st : same_locks st (remove_section title st).
Proof.
  split; [reflexivity|]. unfold remove_section, _reorder_sections. simpl.
  intros l s' Hl Hs'. apply elem_of_filter_list in Hl as [Hl _].
  match type of Hs' with obj (reorder_from ?i ?ls ?h) _ = _ =>
    pose proof (locked_reorder_from ls i h l) as E end.
  rewrite Hs' in E. destruct (obj (heap st) l) as [s|]; [|discriminate].
  injection E as E. eauto.
Qed.

Lemma update_section_same_locks now title content ai st :
  same_locks st (snd (update_section now title content ai st)).
Proof.
  unfold update_section.
  assert (R : same_locks st st) by (split; [reflexivity | intros l s; eauto]).
  destruct (get_section title st) as [l|]; [|exact R].
  destruct (obj (heap st) l) as [s|] eqn:Hs; [|exact R].
  destruct (negb (Section.locked s)); [|exact R].
  split; [reflexivity|]. simpl. intros l' s' Hl' Hs'.
  rewrite obj_update_obj in Hs'. destruct (decide (l = l')) as [<-|].
  - rewrite Hs in Hs'. injection Hs' as <-. exists s. auto.
  - eauto.
Qed.

Lemma log_version_same_locks t_stamp t_modified user role changes st :
  WF st -> same_locks st (log_version t_stamp t_modified user role changes st).
Proof.
  intros W. split; [apply approved_log_version|].
  rewrite sections_log_version, heap_log_version. intros l s' Hl Hs'.
  rewrite (grows_obj (heap st)) in Hs'.
  - eauto.
  - apply copy_sections_spec. exact (wf_live _ W).
  - now apply live_lt.
Qed.

Lemma approve_invariant t_stamp t_modified user st :
  WF st -> approval_invariant (approve t_stamp t_modified user st) = true.
Proof.
  intros W. unfold approval_invariant, all_locked.
  rewrite (read_sections_approve _ _ _ _ W).
  apply implb_true_iff. intros _. apply forallb_forall. intros s Hs.
  apply in_map_iff in Hs as (s0 & <- & _). reflexivity.
Qed.

Lemma step_invariant a st :
  WF st -> approval_invariant st = true -> is_method a = true ->
  adds_before_approval [a] st = true ->
  approval_invariant (step a st) = true.
Proof.
  intros W Hinv Hm Hadd.
  destruct a as [ti co ty o | ti | now ti co ai | t1 t2 u r c | t1 t2 u
                | | | | | | | | ]; try discriminate; cbn [step].
  - simpl in Hadd. rewrite andb_true_r in Hadd. apply negb_true_iff in Hadd.
    unfold approval_invariant, add_section. simpl. now rewrite Hadd.
  - exact (same_locks_invariant _ _ (remove_section_same_locks ti st) Hinv).
  - exact (same_locks_invariant _ _ (update_section_same_locks _ _ _ _ st) Hinv).
  - exact (same_locks_invariant _ _ (log_version_same_locks _ _ _ _ _ st W) Hinv).
  - now apply approve_invariant.
Qed.

(** C1, as the code has it.  Along every history of method calls in which
    [add_section] is not called on an approved document, an approved
    document has only locked sections, and [update_section] on it returns
    [False] and changes nothing. *)
Theorem approved_document_stays_locked (acts : list action) (st : state) :
  wf st = true ->
  approval_invariant st = true ->
  forallb is_method acts = true ->
  adds_before_approval acts st = true ->
  let st' := run acts st in
  approval_invariant st' = true
  /\ (approved (self st') = true ->
      all_locked st' = true
      /\ forall now title content ai_generated,
           update_section now title content ai_generated st' = (false, st')).
Proof.
  rewrite wf_spec. intros W Hinv Hm Hadd st'.
  assert (H : approval_invariant st' = true).
  { unfold st'. clear st'. revert st W Hinv Hadd.
    induction acts as [|a acts IH]; intros st W Hinv Hadd; [exact Hinv|].
    simpl in Hm. apply andb_true_iff in Hm as [Hm1 Hm2].
    rewrite run_cons. apply (IH Hm2).
    - exact (proj1 (step_keeps a st W)).
    - apply step_invariant; auto. simpl in Hadd |- *.
      apply andb_true_iff in Hadd as [Hadd _]. now rewrite Hadd.
    - simpl in Hadd. now apply andb_true_iff in Hadd as [_ Hadd]. }
  split; [exact H|]. intros Ha. unfold approval_invariant in H. rewrite Ha in H.
  simpl in H. split; [exact H|]. intros. now apply update_section_all_locked.
Qed.

End ApprovalInvariant.

Lemma approved_document_stays_locked_witness :
  Session.approval_invariant
    (Session.run [Session.Approve Examples.t_a Examples.t_b "qa";
                  Session.UpdateSection Examples.t_b "Purpose" "changed" false;
                  Session.RemoveSection "Scope"] Examples.thermal) = true.
Proof.
  apply (approved_document_stays_locked
           [Session.Approve Examples.t_a Examples.t_b "qa";
            Session.UpdateSection Examples.t_b "Purpose" "changed" false;
            Session.RemoveSection "Scope"] Examples.thermal);
    reflexivity.
Defined.

(** C1 as stated fails: a section added to an approved document is
    unlocked, and [update_section] then changes it. *)
Lemma approved_document_accepts_new_section :
  let st := Session.run [Session.Approve Examples.t_a Examples.t_b "qa";
                         Session.AddSection "Appendix" "" "text" None] Examples.thermal in
  Document.approved (Document.self st) = true
  /\ Session.all_locked st = false
  /\ fst (Document.update_section Examples.t_b "Appendix" "late text" false st) = true.
Proof. vm_compute. auto. Qed.

(** ** Section order *)

Section SectionOrder.

Import Document Session.

Lemma orders_valid h (ls : list loc) :
  (forall l, l ∈ ls -> valid_ref h l = true) ->
  List.map Section.order (read_sections h ls) = List.map (order_of h) ls.
Proof.
  induction ls as [|l ls IH]; intros Hv; [reflexivity|].
  rewrite read_sections_cons.
  destruct (proj1 (valid_ref_spec h l) (Hv l ltac:(left))) as (s & Hs & _).
  unfold read_section at 1. rewrite Hs. cbn [mbind option_bind]. simpl.
  unfold order_of at 1. rewrite Hs. simpl. f_equal.
  apply IH. intros l' Hl'. apply Hv. now right.
Qed.

Lemma map_seqZ_lookup {A} (f : A -> Z) (xs : list A) :
  List.map f xs = seqZ 0 (Z.of_nat (length xs)) <->
  forall i x, xs !! i = Some x -> f x = Z.of_nat i.
Proof.
  split.
  - intros E i x Hx.
    assert (H : List.map f xs !! i = Some (f x)).
    { change (List.map f xs) with (f <$> xs). now rewrite list_lookup_fmap, Hx. }
    rewrite E in H. apply lookup_seqZ in H as [H _]. lia.
  - intros H. apply list_eq. intros i.
    change (List.map f xs) with (f <$> xs). rewrite list_lookup_fmap.
    destruct (xs !! i) as [x|] eqn:Hx; simpl.
    + rewrite (H i x Hx). symmetry. apply lookup_seqZ. split; [lia|].
      apply lookup_lt_Some in Hx. lia.
    + symmetry. apply lookup_seqZ_ge. apply lookup_ge_None in Hx. lia.
Qed.

Lemma order_is_index_spec st :
  WF st ->
  (order_is_index st = true <->
   forall i l, sections (self st) !! i = Some l -> order_of (heap st) l = Z.of_nat i).
Proof.
  intros W. unfold order_is_index, orders, read. cbn [sections].
  rewrite bool_decide_eq_true, (orders_valid _ _ (wf_live _ W)).
  apply map_seqZ_lookup.
Qed.

(** Sorting a list whose keys do not decrease changes nothing. *)
Lemma sort_by_sorted key (ls : list loc) :
  (forall i a b, ls !! i = Some a -> ls !! S i = Some b -> key a <= key b) ->
  sort_by key ls = ls.
Proof.
  induction ls as [|x r IH]; intros H; [reflexivity|]. simpl.
  rewrite IH by (intros i a b Ha Hb; exact (H (S i) a b Ha Hb)).
  destruct r as [|y r']; [reflexivity|]. simpl.
  pose proof (H 0%nat x y eq_refl eq_refl) as Hxy.
  apply Z.leb_le in Hxy. now rewrite Hxy.
Qed.

Lemma order_of_update_obj_other f l h l' :
  l <> l' -> order_of (update_obj f l h) l' = order_of h l'.
Proof. intros H. unfold order_of. now rewrite obj_update_obj_ne. Qed.

(** After [_reorder_sections] each section carries its position. *)
Lemma reorder_from_order (ls : list loc) idx h :
  NoDup ls -> (forall l, l ∈ ls -> valid_ref h l = true) ->
  forall i l, ls !! i = Some l ->
              order_of (reorder_from idx ls h) l = Z.of_nat (idx + i).
Proof.
  revert idx h. induction ls as [|l0 r IH]; intros idx h Hnd Hv i l Hl; [discriminate|].
  apply NoDup_cons in Hnd as [Hnotin Hnd]. simpl.
  set (h1 := update_obj (Section.with_order (Z.of_nat idx)) l0 h).
  assert (Hv1 : forall l', l' ∈ r -> valid_ref h1 l' = true).
  { intros l' Hl'. apply (retouch_valid_ref [l0] h h1).
    - apply retouch_update; [left | reflexivity].
    - apply Hv. now right. }
  destruct i as [|i]; simpl in Hl.
  - injection Hl as <-.
    destruct (retouch_reorder_from r r (S idx) h1 (fun _ H => H)) as (_ & _ & F & _).
    unfold order_of. rewrite (F l0 Hnotin).
    destruct (proj1 (valid_ref_spec h l0) (Hv l0 ltac:(left))) as (s & Hs & _).
    unfold h1. rewrite (obj_update_obj_eq _ l0 h s Hs). simpl. f_equal. lia.
  - rewrite (IH (S idx) h1 Hnd Hv1 i l Hl). f_equal. lia.
Qed.

Lemma remove_section_order title st :
  WF st -> order_is_index (remove_section title st) = true.
Proof.
  intros W.
  assert (W' : WF (remove_section title st)).
  { apply (extends_keeps st _ W). now apply remove_section_extends. }
  apply (order_is_index_spec _ W'). unfold remove_section, _reorder_sections. simpl.
  intros i l Hl.
  rewrite (reorder_from_order _ 0 (heap st)) with (i := i); [reflexivity | | | exact Hl].
  - apply NoDup_list_filter. exact (wf_distinct _ W).
  - intros l' Hl'. apply elem_of_filter_list in Hl' as [Hl' _]. now apply (wf_live _ W).
Qed.

Lemma add_section_order title content content_type st :
  WF st -> order_is_index st = true ->
  order_is_index (add_section title content content_type None st) = true.
Proof.
  intros W Hord.
  assert (W' : WF (add_section title content content_type None st)).
  { apply (extends_keeps st _ W). now apply add_section_extends. }
  apply (order_is_index_spec _ W').
  rewrite (order_is_index_spec _ W) in Hord.
  unfold add_section. simpl.
  set (n := length (sections (self st))).
  set (sec := Section.mk title content content_type false false (Z.of_nat n)
                (length (dicts (heap st)))).
  set (h2 := mk_store (objs (heap st) ++ [sec]) (dicts (heap st) ++ [[]])).
  set (lnew := length (objs (heap st))).
  assert (G : grows (heap st) h2) by (eexists _, _; split; reflexivity).
  assert (Hold : forall i l, sections (self st) !! i = Some l ->
                             order_of h2 l = Z.of_nat i).
  { intros i l Hl. unfold order_of. rewrite (grows_obj (heap st) h2 l G).
    - exact (Hord i l Hl).
    - apply (live_lt st l W). apply list_elem_of_lookup. eauto. }
  assert (Hnew : order_of h2 lnew = Z.of_nat n).
  { unfold order_of, obj, h2, lnew. simpl. now rewrite list_lookup_middle. }
  assert (Hall : forall i l, (sections (self st) ++ [lnew]) !! i = Some l ->
                             order_of h2 l = Z.of_nat i).
  { intros i l Hl. apply lookup_app_Some in Hl as [Hl | [Hge Hl]].
    - exact (Hold i l Hl).
    - apply list_lookup_singleton_Some in Hl as [Hi <-]. rewrite Hnew. fold n in Hge, Hi. f_equal. lia. }
  rewrite sort_by_sorted.
  - exact Hall.
  - intros i a b Ha Hb. rewrite (Hall i a Ha), (Hall (S i) b Hb). lia.
Qed.

(** C2, as the code has it.  [remove_section] leaves every section with
    its index as [order], whatever the orders were; and from a document in
    which [order] is the index, every history of [remove_section] calls
    and of [add_section] calls without an [order] argument ends in such a
    document. *)
Theorem order_is_index_kept (st : state) :
  wf st = true ->
  (forall title, order_is_index (remove_section title st) = true)
  /\ (order_is_index st = true ->
      forall acts, forallb keeps_order acts = true ->
                   order_is_index (run acts st) = true).
Proof.
  rewrite wf_spec. intros W. split.
  - intros title. now apply remove_section_order.
  - intros Hord acts. revert st W Hord.
    induction acts as [|a acts IH]; intros st W Hord Hk; [exact Hord|].
    simpl in Hk. apply andb_true_iff in Hk as [Ha Hk].
    rewrite run_cons. apply IH; [exact (proj1 (step_keeps a st W)) | | exact Hk].
    destruct a as [ti co ty [o|] | ti | | | | | | | | | | | ]; try discriminate; cbn [step].
    + now apply add_section_order.
    + now apply remove_section_order.
Qed.

End SectionOrder.

Lemma order_is_index_kept_witness :
  Session.order_is_index
    (Session.run [Session.AddSection "Records" "" "text" None;
                  Session.RemoveSection "Purpose";
                  Session.AddSection "Safety" "" "text" None] Examples.thermal) = true.
Proof.
  apply (proj2 (order_is_index_kept Examples.thermal eq_refl)); reflexivity.
Defined.

(** C2 as stated fails: an explicit [order] is stored as given. *)
Lemma add_section_explicit_order_kept :
  Session.orders (Document.add_section "Purpose" "" "text" (Some 5) Examples.fresh) = [5]
  /\ Session.orders
       (Session.run [Session.AddSection "Purpose" "" "text" (Some 0);
                     Session.AddSection "Scope" "" "text" (Some 0)] Examples.fresh)
     = [0; 0].
Proof. split; reflexivity. Qed.

(** ** ISO 8601 timestamps *)

Section IsoFormat.

Lemma digit_val_digit (d : Z) : digit_val (digit d) = Some (d mod 10).
Proof.
  unfold digit_val, digit.
  pose proof (Z.mod_pos_bound d 10 ltac:(lia)) as Hm.
  rewrite N_ascii_embedding by lia.
  replace ((48 <=? Z.to_N (48 + d mod 10))%N && (Z.to_N (48 + d mod 10) <=? 57)%N)
    with true.
  - f_equal. lia.
  - symmetry. apply andb_true_iff. split; apply N.leb_le; lia.
Qed.

Lemma pad_onto_append (w : nat) (n : Z) (acc : string) :
  pad_onto w n acc = pad w n +:+ acc.
Proof.
  unfold pad. revert n acc. induction w as [|w IH]; intros n acc; [reflexivity|].
  simpl. rewrite (IH (n / 10) (String (digit n) acc)),
                 (IH (n / 10) (String (digit n) "")).
  now rewrite append_assoc.
Qed.

Lemma read_digits_add (w k : nat) (acc : Z) (s : string) :
  read_digits (w + k) acc s
  = match read_digits w acc s with
    | Some (v, r) => read_digits k v r
    | None => None
    end.
Proof.
  revert acc s. induction w as [|w IH]; intros acc s; [reflexivity|].
  simpl. destruct s as [|c r]; [reflexivity|].
  destruct (digit_val c) as [d|]; [|reflexivity].
  cbn [mbind option_bind]. apply IH.
Qed.

Lemma read_digits_pad (w : nat) (n acc : Z) (rest : string) :
  0 <= n < 10 ^ Z.of_nat w ->
  read_digits w acc (pad w n +:+ rest) = Some (acc * 10 ^ Z.of_nat w + n, rest).
Proof.
  revert n acc rest. induction w as [|w IH]; intros n acc rest Hn.
  - simpl in *. f_equal. f_equal. lia.
  - rewrite Nat2Z.inj_succ, Z.pow_succ_r in * by lia.
    unfold pad. simpl pad_onto. rewrite pad_onto_append, append_assoc.
    replace (S w) with (w + 1)%nat by lia.
    rewrite read_digits_add, IH.
    + simpl. rewrite digit_val_digit. cbn [mbind option_bind].
      f_equal. f_equal. pose proof (Z.div_mod n 10 ltac:(lia)). lia.
    + split; [apply Z.div_pos; lia|]. apply Z.div_lt_upper_bound; lia.
Qed.

Lemma read_digits_pad0 (w : nat) (n : Z) (rest : string) :
  0 <= n < 10 ^ Z.of_nat w ->
  read_digits w 0 (pad w n +:+ rest) = Some (n, rest).
Proof. intros Hn. now rewrite read_digits_pad. Qed.

Lemma days_in_month_le (y m : Z) : days_in_month y m <= 31.
Proof.
  unfold days_in_month. destruct (m =? 2); [destruct (is_leap y); lia|].
  destruct ((m =? 4) || (m =? 6) || (m =? 9) || (m =? 11)); lia.
Qed.

Lemma between_spec lo x hi : between lo x hi = true <-> lo <= x <= hi.
Proof. unfold between. rewrite andb_true_iff, !Z.leb_le. tauto. Qed.

Lemma append_char (c : ascii) (x : string) : String c "" +:+ x = String c x.
Proof. reflexivity. Qed.

Lemma expect_cons (c : ascii) (r : string) : expect c (String c r) = Some r.
Proof. unfold expect. now rewrite Ascii.eqb_refl. Qed.

(** [fromisoformat] undoes [isoformat] on every datetime the constructor
    accepts. *)
Lemma fromisoformat_isoformat (t : datetime) :
  valid t = true -> fromisoformat (isoformat t) = Some t.
Proof.
  intros Hv. pose proof Hv as Hvalid. destruct t as [y m d hh mm ss us].
  unfold valid in Hv. cbn [year month day hour minute second microsecond] in Hv.
  rewrite !andb_true_iff, !between_spec in Hv.
  destruct Hv as ((((((Hy & Hm) & Hd) & Hh) & Hmi) & Hs) & Hus).
  pose proof (days_in_month_le y m) as Hdim.
  assert (P4 : 10 ^ Z.of_nat 4 = 10000) by reflexivity.
  assert (P2 : 10 ^ Z.of_nat 2 = 100) by reflexivity.
  assert (P6 : 10 ^ Z.of_nat 6 = 1000000) by reflexivity.
  unfold fromisoformat, isoformat, date_part, time_part.
  cbn [year month day hour minute second microsecond].
  rewrite !append_assoc, !append_char.
  rewrite read_digits_pad0 by lia. cbn [mbind option_bind].
  rewrite expect_cons. cbn [mbind option_bind].
  rewrite read_digits_pad0 by lia. cbn [mbind option_bind].
  rewrite expect_cons. cbn [mbind option_bind].
  rewrite read_digits_pad0 by lia. cbn [mbind option_bind any_char].
  rewrite read_digits_pad0 by lia. cbn [mbind option_bind].
  rewrite expect_cons. cbn [mbind option_bind].
  rewrite read_digits_pad0 by lia. cbn [mbind option_bind].
  rewrite expect_cons. cbn [mbind option_bind].
  rewrite read_digits_pad0 by lia. cbn [mbind option_bind].
  destruct (us =? 0) eqn:E.
  - apply Z.eqb_eq in E. subst us. cbn [read_fraction mbind option_bind].
    now rewrite Hvalid.
  - apply Z.eqb_neq in E. rewrite ?append_char. unfold read_fraction.
    rewrite expect_cons. cbn [mbind option_bind].
    rewrite <- (append_nil_r (pad 6 us)).
    rewrite read_digits_pad0 by lia. cbn [mbind option_bind].
    now rewrite Hvalid.
Qed.

End IsoFormat.

(** ** The serialised form *)

Section RoundTrip.

Lemma traverse_map {A B} (f : A -> option B) (g : B -> A) (xs : list B) :
  (forall x, In x xs -> f (g x) = Some x) -> traverse f (List.map g xs) = Some xs.
Proof.
  induction xs as [|x xs IH]; intros H; [reflexivity|]. simpl.
  rewrite (H x) by now left. cbn [mbind option_bind].
  rewrite IH by (intros y Hy; apply H; now right). reflexivity.
Qed.

Lemma section_round_trip (s : Section.t dict) :
  Section.from_dict (Section.to_dict s) = Some s.
Proof. destruct s. reflexivity. Qed.

#[local] Arguments isoformat : simpl never.
#[local] Arguments fromisoformat : simpl never.
#[local] Arguments traverse : simpl never.
#[local] Arguments Section.to_dict : simpl never.
#[local] Arguments Section.from_dict : simpl never.

Lemma version_round_trip (v : DocumentVersion.t (Section.t dict)) :
  valid (DocumentVersion.timestamp v) = true ->
  DocumentVersion.from_dict (DocumentVersion.to_dict v) = Some v.
Proof.
  intros Hv. destruct v as [id ts u r c snap]. simpl in Hv.
  unfold DocumentVersion.from_dict, DocumentVersion.to_dict. simpl.
  rewrite (fromisoformat_isoformat ts Hv). simpl.
  rewrite traverse_map by (intros; apply section_round_trip). reflexivity.
Qed.

#[local] Arguments DocumentVersion.to_dict : simpl never.
#[local] Arguments DocumentVersion.from_dict : simpl never.

(** C6.  Reading back the serialised form of a document gives a document
    equal to the original in every field: the timestamps through their
    ISO 8601 text, every field of every section with its metadata bag, the
    document's metadata bag, and every version with its snapshot.  This
    holds for every document, those with sections, versions and metadata
    included. *)
Theorem document_round_trip (d : Document.t (Section.t dict)) :
  Session.timestamps_valid d = true ->
  Document.from_dict (Document.to_dict d) = Some d.
Proof.
  intros Hv. destruct d as [ti num secs by_ created modified vers appr who meta tmpl].
  unfold Session.timestamps_valid in Hv. simpl in Hv.
  apply andb_true_iff in Hv as [Hv Hvers]. apply andb_true_iff in Hv as [Hc Hm].
  rewrite forallb_forall in Hvers.
  unfold Document.from_dict, Document.to_dict. simpl.
  rewrite (fromisoformat_isoformat created Hc). simpl.
  rewrite (fromisoformat_isoformat modified Hm). simpl.
  rewrite (traverse_map Section.from_dict Section.to_dict secs)
    by (intros; apply section_round_trip).
  simpl.
  rewrite (traverse_map DocumentVersion.from_dict DocumentVersion.to_dict vers)
    by (intros v Hin; apply version_round_trip; now apply Hvers).
  simpl. now destruct who.
Qed.

End RoundTrip.

Lemma document_round_trip_witness :
  Session.timestamps_valid (Document.read Examples.released) = true
  /\ Document.from_dict (Document.to_dict (Document.read Examples.released))
     = Some (Document.read Examples.released).
Proof.
  split; [reflexivity|].
  apply (document_round_trip (Document.read Examples.released)). reflexivity.
Defined.

(** ** Blank sections in the exports *)

Section BlankSections.

Import PyStr DocumentExporter.

Lemma lstrip_by_all p s : all_chars p s = true -> lstrip_by p s = "".
Proof.
  induction s as [|c r IH]; simpl; [reflexivity|].
  intros H. apply andb_true_iff in H as [Hc Hr]. rewrite Hc. now apply IH.
Qed.

Lemma lstrip_by_head p s c r : lstrip_by p s = String c r -> p c = false.
Proof.
  induction s as [|c' r' IH]; simpl; [discriminate|].
  destruct (p c') eqn:E; [exact IH|]. now intros [= <- _].
Qed.

Lemma lstrip_by_empty p s : lstrip_by p s = "" -> all_chars p s = true.
Proof.
  induction s as [|c r IH]; simpl; [reflexivity|].
  destruct (p c); [exact IH | discriminate].
Qed.

Lemma rstrip_by_empty p s : rstrip_by p s = "" -> all_chars p s = true.
Proof.
  induction s as [|c r IH]; simpl; [reflexivity|].
  destruct (rstrip_by p r) eqn:E; [|discriminate].
  destruct (p c); [intros _; now apply IH | discriminate].
Qed.

Lemma strip_by_empty p s : strip_by p s = "" <-> all_chars p s = true.
Proof.
  unfold strip_by. split.
  - intros H. apply rstrip_by_empty in H.
    destruct (lstrip_by p s) as [|c r] eqn:E; [now apply lstrip_by_empty|].
    apply lstrip_by_head in E. simpl in H. now rewrite E in H.
  - intros H. now rewrite lstrip_by_all.
Qed.

Lemma all_chars_append p a b :
  all_chars p (a +:+ b) = all_chars p a && all_chars p b.
Proof.
  induction a as [|c a IH]; simpl; [reflexivity|]. now rewrite IH, andb_assoc.
Qed.

(** The pieces of a string of blanks are strings of blanks. *)
Lemma split_go_all p sep skip cur s :
  all_chars p cur = true -> all_chars p s = true ->
  Forall (fun piece => all_chars p piece = true) (split_go sep skip cur s).
Proof.
  revert skip cur. induction s as [|c r IH]; intros skip cur Hcur Hs; cbn [split_go].
  - now repeat constructor.
  - simpl in Hs. apply andb_true_iff in Hs as [Hc Hr].
    destruct skip as [|k]; [|now apply IH].
    destruct (String.prefix sep (String c r)).
    + constructor; [assumption|]. now apply IH.
    + apply IH; [|assumption]. rewrite all_chars_append, Hcur. simpl. now rewrite Hc.
Qed.

Lemma is_blank_all_space s : is_blank s = true <-> all_chars isspace s = true.
Proof.
  unfold is_blank, strip. split.
  - intros H. apply orb_true_iff in H as [H | H].
    + now destruct s.
    + apply strip_by_empty. now destruct (strip_by isspace s).
  - intros H. apply strip_by_empty in H. rewrite H. apply orb_true_r.
Qed.

(** A table section of blanks has no line to parse. *)
Lemma table_lines_blank content : is_blank content = true -> table_lines content = [].
Proof.
  intros H. apply is_blank_all_space in H. unfold table_lines, split.
  pose proof (split_go_all isspace nl 0 "" content eq_refl H) as Hall.
  induction Hall as [|piece pieces Hp _ IH]; [reflexivity|]. simpl.
  apply strip_by_empty in Hp. unfold strip. rewrite Hp. simpl. exact IH.
Qed.

Lemma parse_table_raises lines e : parse_table lines = Raise e -> e = IndexError.
Proof.
  unfold parse_table. destruct lines as [|first rest]; [now intros [= <-]|].
  destruct (startswith "|" first); discriminate.
Qed.

(** C7 fails for the spreadsheet format.  Whenever a document has a table
    section whose content is not empty but only whitespace, the workbook
    of [to_excel] is not built: the section passes the guard of the loop,
    gets its worksheet, and the parse of its lines raises [IndexError]. *)
Theorem excel_raises_on_blank_table_section
  (save : workbook -> bytes) (d : doc) (sec : Section.t dict) :
  In sec (Document.sections d) ->
  Section.content_type sec = "table" ->
  Section.content sec <> "" ->
  is_blank (Section.content sec) = true ->
  to_excel (Some save) d = Raise IndexError.
Proof.
  intros Hin Hty Hne Hblank. unfold to_excel, excel_workbook.
  assert (H : forall secs n done, In sec secs ->
                excel_sheets secs n done = Raise IndexError).
  { clear Hin. induction secs as [|s0 rest IH]; intros n done Hs; [destruct Hs|].
    simpl.
    destruct (String.eqb (Section.content_type s0) "table" && truthy (Section.content s0))
      eqn:Hguard.
    - destruct (parse_table (table_lines (Section.content s0))) as [[headers rows]|e] eqn:Hp.
      + simpl. destruct Hs as [-> | Hs]; [|now apply IH].
        rewrite (table_lines_blank _ Hblank) in Hp. discriminate.
      + simpl. now rewrite (parse_table_raises _ _ Hp).
    - destruct Hs as [-> | Hs]; [|now apply IH].
      rewrite Hty in Hguard. simpl in Hguard.
      destruct (Section.content sec); [congruence | discriminate]. }
  now rewrite H.
Qed.

Lemma markdown_sections_filter (secs : list (Section.t dict)) :
  flat_map markdown_section
    (List.filter (fun sec => negb (is_blank (Section.content sec))) secs)
  = flat_map markdown_section secs.
Proof.
  induction secs as [|sec secs IH]; [reflexivity|].
  cbn [List.filter flat_map].
  destruct (is_blank (Section.content sec)) eqn:E; cbn [negb flat_map].
  - rewrite IH. unfold markdown_section at 2. now rewrite E.
  - now rewrite IH.
Qed.

(** Markdown, for comparison, drops blank sections: the text is that of
    the document without them. *)
Lemma to_markdown_skips_blank_sections (now : datetime) (d : doc) :
  to_markdown now d
  = to_markdown now
      (Document.with_sections
         (List.filter (fun sec => negb (is_blank (Section.content sec)))
                      (Document.sections d)) d).
Proof.
  unfold to_markdown.
  change (markdown_header (Document.with_sections _ d)) with (markdown_header d).
  change (markdown_footer now (Document.with_sections _ d)) with (markdown_footer now d).
  cbn [Document.sections Document.with_sections].
  now rewrite markdown_sections_filter.
Qed.

End BlankSections.

Lemma excel_raises_on_blank_table_section_witness :
  DocumentExporter.to_excel (Some Examples.plain_save)
    (Document.read Examples.blank_table) = Raise IndexError.
Proof.
  apply (excel_raises_on_blank_table_section Examples.plain_save
           (Document.read Examples.blank_table)
           (Section.mk "Limits" "   " "table" false false 0 [])).
  - left. reflexivity.
  - reflexivity.
  - discriminate.
  - reflexivity.
Defined.

(** Without the spreadsheet writer the same section shows in the
    comma-separated fallback, heading and body. *)
Lemma csv_fallback_keeps_blank_table_section :
  DocumentExporter._to_csv (Document.read Examples.blank_table)
  = "# Thermal Cycling Test" +:+ PyStr.nl +:+ "# Document Number: SOP-001" +:+ PyStr.nl
    +:+ PyStr.nl +:+ PyStr.nl +:+ "# Limits" +:+ PyStr.nl +:+ "   ".
Proof. reflexivity. Qed.
